(** * StartAnime: service-worker cache routing and component loading

    A shallow embedding of [sw.js] (request classification, the four fetch
    handlers, the install and activate hooks) and of the [ComponentLoader]
    class of [assets/js/components.js] ([loadComponent],
    [extractComponentContent] and [processComponentTemplate]), with the
    properties the specification states about them.

    Conventions of the model:
    - a JavaScript string is a [string], one character per code unit,
      which covers the code units below 256;
    - an asynchronous function is a state transformer that ends fulfilled
      or rejected; the state holds what the script can change and a log of
      what it did to the outside (fetches, cache writes, console output),
      and awaited steps run one after the other;
    - the browser is the environment: [CacheStorage] is a list of named
      buckets in creation order, a request is identified by its URL as
      written (URLs are taken relative to the worker's origin) and only
      GET requests are stored; the network, [JSON.parse] and the DOM are
      parameters. *)

From Stdlib Require Import String Ascii List Bool Arith Lia DecimalString.
From stdpp Require Import base option gmap strings.
Import ListNotations.

Local Open Scope bool_scope.

(** [simpl] may unfold string concatenation applied to a constructor. *)
#[local] Arguments String.append !_ _ / : simpl nomatch.

(** ** JavaScript strings *)

Module JsString.

(** [s.startsWith(p)] *)
Fixpoint startsWith (s p : string) : bool :=
  match p, s with
  | EmptyString, _ => true
  | String _ _, EmptyString => false
  | String a p', String b s' => Ascii.eqb a b && startsWith s' p'
  end.

(** [s.includes(sub)]: [sub] occurs in [s] at some position. *)
Fixpoint includes (s sub : string) : bool :=
  startsWith s sub ||
  match s with
  | EmptyString => false
  | String _ s' => includes s' sub
  end.

(** [s.endsWith(suf)] *)
Fixpoint endsWith (s suf : string) : bool :=
  String.eqb s suf ||
  match s with
  | EmptyString => false
  | String _ s' => endsWith s' suf
  end.

(** [exts.some(ext => s.includes(ext))] and its suffix analogue *)
Definition some_included (exts : list string) (s : string) : bool :=
  existsb (fun ext => includes s ext) exts.

Definition some_suffix (exts : list string) (s : string) : bool :=
  existsb (fun ext => endsWith s ext) exts.

(** Propositional reading: [Substring sub s] when [s = p ++ sub ++ q]. *)
Definition Substring (sub s : string) : Prop :=
  exists p q, s = p +:+ sub +:+ q.

Definition Suffix (suf s : string) : Prop :=
  exists p, s = p +:+ suf.

End JsString.

(** ** Promises and asynchronous functions *)

Module Js.

Inductive error :=
| TypeError (msg : string)
| SyntaxError (msg : string)
| Error (msg : string).

(** How a promise settles. *)
Inductive settled (A : Type) :=
| Fulfilled (a : A)
| Rejected (e : error).
Arguments Fulfilled {A} a.
Arguments Rejected {A} e.

Section Async.
(** [S] is what the running script can change: caches, the console,
    the memo of a loader. *)
Context {S : Type}.

Definition async (A : Type) : Type := S -> settled A * S.

Definition ret {A} (a : A) : async A := fun st => (Fulfilled a, st).

Definition throw {A} (e : error) : async A := fun st => (Rejected e, st).

(** [await m] followed by the rest of the function body. *)
Definition bind {A B} (m : async A) (k : A -> async B) : async B :=
  fun st =>
    match m st with
    | (Fulfilled a, st') => k a st'
    | (Rejected e, st') => (Rejected e, st')
    end.

(** [try { m } catch (error) { h error }], also [m.catch(h)]. *)
Definition try_catch {A} (m : async A) (h : error -> async A) : async A :=
  fun st =>
    match m st with
    | (Fulfilled a, st') => (Fulfilled a, st')
    | (Rejected e, st') => h e st'
    end.

(** A promise that is started and neither awaited nor returned: its
    effects happen, its settlement is not observed. *)
Definition detached {A} (m : async A) : async unit :=
  fun st => (Fulfilled tt, snd (m st)).

(** [xs.forEach(f)] / [Promise.all(xs.map(f))] for effects run in list
    order. *)
Fixpoint for_each {A} (f : A -> async unit) (xs : list A) : async unit :=
  match xs with
  | [] => ret tt
  | x :: xs' => bind (f x) (fun _ => for_each f xs')
  end.
End Async.

Arguments async : clear implicits.

Module Notations.
Notation "x <- m ;; k" := (bind m (fun x => k))
  (at level 20, m at level 99, k at level 200, right associativity).
Notation "m ;; k" := (bind m (fun _ => k))
  (at level 100, k at level 200, right associativity).
End Notations.

End Js.

(** ** JSON values *)

Module Json.

(** A value as [JSON.parse] returns it, or as a script builds it from
    [null], booleans, numbers, strings, arrays and plain objects. A
    number is kept as the text JavaScript prints for it, [NaN] and the
    infinities included; the pairs of an object are in the order
    [Object.keys] lists them. *)
#[warnings="-register-all"] Inductive value :=
| Null
| Bool (b : bool)
| Number (text : string)
| Str (s : string)
| Array (items : list value)
| Object (members : list (string * value)).

Definition dquote : ascii := "034"%char.
Definition backslash : ascii := "092"%char.

Definition hex_digit (n : nat) : ascii :=
  ascii_of_nat (if n <? 10 then 48 + n else 87 + n).

(** One code unit inside a JSON string literal. *)
Definition quote_char (c : ascii) : string :=
  let n := nat_of_ascii c in
  if Ascii.eqb c dquote then String backslash (String dquote "")
  else if Ascii.eqb c backslash then String backslash (String backslash "")
  else if n =? 8 then String backslash "b"
  else if n =? 9 then String backslash "t"
  else if n =? 10 then String backslash "n"
  else if n =? 12 then String backslash "f"
  else if n =? 13 then String backslash "r"
  else if n <? 32 then
    String backslash ("u00" +:+ String (hex_digit (n / 16)) (String (hex_digit (n mod 16)) ""))
  else String c "".

Fixpoint quote_chars (s : string) : string :=
  match s with
  | EmptyString => ""
  | String c s' => quote_char c +:+ quote_chars s'
  end.

Definition quote (s : string) : string :=
  String dquote (quote_chars s +:+ String dquote "").

Fixpoint join (sep : string) (parts : list string) : string :=
  match parts with
  | [] => ""
  | [x] => x
  | x :: rest => x +:+ sep +:+ join sep rest
  end.

(** The numbers JSON has no text for. *)
Definition non_finite (text : string) : bool :=
  String.eqb text "NaN" || String.eqb text "Infinity" || String.eqb text "-Infinity".

(** [JSON.stringify(v)] *)
Fixpoint stringify (v : value) : string :=
  match v with
  | Null => "null"
  | Bool true => "true"
  | Bool false => "false"
  | Number text => if non_finite text then "null" else text
  | Str s => quote s
  | Array items => "[" +:+ join "," (map stringify items) +:+ "]"
  | Object members =>
      "{" +:+ join "," (map (fun kv => quote (fst kv) +:+ ":" +:+ stringify (snd kv)) members)
          +:+ "}"
  end.

(** [String(v)], the conversion [String.prototype.replace] applies to a
    replacement that is not a function. *)
Fixpoint to_string (v : value) : string :=
  match v with
  | Null => "null"
  | Bool true => "true"
  | Bool false => "false"
  | Number text => text
  | Str s => s
  | Array items =>
      join "," (map (fun x => match x with Null => "" | _ => to_string x end) items)
  | Object _ => "[object Object]"
  end.

End Json.

(** ** The service worker, [sw.js] *)

Module Sw.
Import JsString Js Js.Notations.

(** *** Requests, responses, the cache store *)

Record request := Request { method : string; url : string }.

(** [new Request(u)] and the request a bare URL string stands for. *)
Definition GET (u : string) : request := Request "GET" u.

Record response := Response {
  status : nat;
  headers : list (string * string);
  body : string
}.

(** [response.ok] *)
Definition ok (r : response) : bool :=
  (200 <=? status r) && (status r <=? 299).

(** What the worker does to the outside, in the order it does it. *)
Inductive event :=
| NetFetch (r : request)
| CachePut (cacheName u : string) (r : response)
| CacheDelete (cacheName : string)
| ConsoleLog (args : list string)
| ConsoleError (msg : string) (e : error)
| SkipWaiting
| ClientsClaim.

(** [caches]: the named buckets in creation order, each a map from the
    URL of a GET request to the stored response. *)
Record state := State {
  caches : list (string * gmap string response);
  events : list event
}.

Definition emit (e : event) : async state unit :=
  fun st => (Fulfilled tt, State (caches st) (events st ++ [e])).

Definition console_log (args : list string) : async state unit :=
  emit (ConsoleLog args).

Definition console_error (msg : string) (e : error) : async state unit :=
  emit (ConsoleError msg e).

Definition has_cache (name : string) (cs : list (string * gmap string response)) : bool :=
  existsb (fun p => String.eqb (fst p) name) cs.

Definition update_cache (name : string)
    (f : gmap string response -> gmap string response)
    (cs : list (string * gmap string response)) :=
  map (fun p => if String.eqb (fst p) name then (fst p, f (snd p)) else p) cs.

(** [caches.open(name)]: creates the bucket when there is none. *)
Definition caches_open (name : string) : async state string :=
  fun st =>
    (Fulfilled name,
     if has_cache name (caches st) then st
     else State (caches st ++ [(name, ∅)]) (events st)).

(** [caches.keys()] *)
Definition caches_keys : async state (list string) :=
  fun st => (Fulfilled (map fst (caches st)), st).

(** [caches.delete(name)] *)
Definition caches_delete (name : string) : async state bool :=
  fun st =>
    (Fulfilled (has_cache name (caches st)),
     State (List.filter (fun p => negb (String.eqb (fst p) name)) (caches st))
           (events st ++ [CacheDelete name])).

(** [cache.put(request, response)] on the bucket [name]; only GET
    requests can be stored. Responses the platform refuses for other
    reasons (partial content, [Vary: *]) are not told apart. *)
Definition cache_put (name : string) (rq : request) (r : response) : async state unit :=
  fun st =>
    if String.eqb (method rq) "GET" then
      (Fulfilled tt,
       State (update_cache name (fun c => <[url rq := r]> c) (caches st))
             (events st ++ [CachePut name (url rq) r]))
    else (Rejected (TypeError "Request method is unsupported"), st).

(** The first bucket, in creation order, that holds the URL. *)
Fixpoint match_all (cs : list (string * gmap string response)) (u : string)
    : option response :=
  match cs with
  | [] => None
  | (_, c) :: cs' =>
      match c !! u with
      | Some r => Some r
      | None => match_all cs' u
      end
  end.

(** [caches.match(request)]: [undefined] is [None]. *)
Definition caches_match (rq : request) : async state (option response) :=
  fun st =>
    (Fulfilled (if String.eqb (method rq) "GET" then match_all (caches st) (url rq)
                else None), st).

(** The bucket called [name], and the entry it holds for a URL. *)
Fixpoint bucket (name : string) (cs : list (string * gmap string response))
    : option (gmap string response) :=
  match cs with
  | [] => None
  | (n, c) :: cs' => if String.eqb n name then Some c else bucket name cs'
  end.

Definition stored (name u : string) (cs : list (string * gmap string response))
    : option response :=
  match bucket name cs with
  | Some c => c !! u
  | None => None
  end.

(** Readings of the event log. *)
Definition is_fetch (e : event) : bool :=
  match e with NetFetch _ => true | _ => false end.

Definition is_put (e : event) : bool :=
  match e with CachePut _ _ _ => true | _ => false end.

Fixpoint deleted (evs : list event) : list string :=
  match evs with
  | [] => []
  | CacheDelete n :: evs' => n :: deleted evs'
  | _ :: evs' => deleted evs'
  end.

Definition fresh : state := State [] [].

Section Network.
(** The network: how [fetch(request)] settles. *)
Variable net : request -> settled response.

Definition fetch (rq : request) : async state response :=
  fun st => (net rq, State (caches st) (events st ++ [NetFetch rq])).

(** The responses [cache.addAll(urls)] would store: every URL must be
    fetched with an [ok] response. *)
Fixpoint fetch_every (urls : list string) : option (list (string * response)) :=
  match urls with
  | [] => Some []
  | u :: urls' =>
      match net (GET u) with
      | Fulfilled r =>
          if ok r then
            match fetch_every urls' with
            | Some rs => Some ((u, r) :: rs)
            | None => None
            end
          else None
      | Rejected _ => None
      end
  end.

Definition addAll_failure : error :=
  TypeError "Failed to execute 'addAll' on 'Cache': Request failed".

(** [cache.addAll(urls)] on the bucket [name]: all the requests are
    issued; the bucket is written only when all of them succeeded. *)
Definition cache_addAll (name : string) (urls : list string) : async state unit :=
  fun st =>
    let issued := events st ++ map (fun u => NetFetch (GET u)) urls in
    match fetch_every urls with
    | Some rs =>
        (Fulfilled tt,
         State (update_cache name
                  (fun c => fold_left (fun c p => <[fst p := snd p]> c) rs c)
                  (caches st))
               (issued ++ map (fun p => CachePut name (fst p) (snd p)) rs))
    | None =>
        (Rejected addAll_failure, State (caches st) issued)
    end.

(** *** The worker's constants *)

Definition STATIC_CACHE : string := "startanime-static-v1.0.0".
Definition DYNAMIC_CACHE : string := "startanime-dynamic-v1.0.0".
Definition IMAGE_CACHE : string := "startanime-images-v1.0.0".

Definition STATIC_FILES : list string :=
  [ "/";
    "/index.html";
    "/recommend.html";
    "/assets/css/main.css";
    "/assets/css/mobile-optimizations.css";
    "/assets/css/performance.css";
    "/assets/css/recomendations.css";
    "/assets/css/animations.css";
    "/assets/css/components.css";
    "/assets/js/main.js";
    "/assets/js/recommendations.js";
    "/assets/js/animations.js";
    "/assets/js/utils.js";
    "/assets/fonts/Inter-Regular.woff2";
    "/assets/fonts/Inter-Medium.woff2";
    "/assets/fonts/Inter-Bold.woff2";
    "/assets/images/ui/logo.svg";
    "/assets/images/ui/arrow-right.svg";
    "/assets/images/ui/star.svg";
    "/data/anime-list.json";
    "/data/genres.json";
    "/data/recommendations.json" ].

(** *** Install and activate *)

(** The promise handed to [event.waitUntil] by the install listener. *)
Definition install : async state unit :=
  console_log ["Service Worker: Installing..."] ;;
  try_catch
    (cache <- caches_open STATIC_CACHE ;;
     console_log ["Service Worker: Caching static files"] ;;
     cache_addAll cache STATIC_FILES ;;
     console_log ["Service Worker: Static files cached"] ;;
     emit SkipWaiting)
    (fun error =>
       console_error "Service Worker: Failed to cache static files" error).

(** The test of the activate listener: [cacheName] is none of the three
    current buckets. *)
Definition is_old_cache (cacheName : string) : bool :=
  negb (String.eqb cacheName STATIC_CACHE) &&
  negb (String.eqb cacheName DYNAMIC_CACHE) &&
  negb (String.eqb cacheName IMAGE_CACHE).

(** The callback mapped over [cacheNames]. *)
Definition delete_if_old (cacheName : string) : async state unit :=
  if is_old_cache cacheName then
    console_log ["Service Worker: Deleting old cache"; cacheName] ;;
    _ <- caches_delete cacheName ;;
    ret tt
  else ret tt.

(** The promise handed to [event.waitUntil] by the activate listener. *)
Definition activate : async state unit :=
  console_log ["Service Worker: Activating..."] ;;
  cacheNames <- caches_keys ;;
  for_each delete_if_old cacheNames ;;
  console_log ["Service Worker: Activated"] ;;
  emit ClientsClaim.

(** *** Classification *)

Definition staticExtensions : list string :=
  [".html"; ".css"; ".js"; ".woff2"; ".svg"].

Definition isStaticFile (rq : request) : bool :=
  some_included staticExtensions (url rq).

Definition imageExtensions : list string :=
  [".jpg"; ".jpeg"; ".png"; ".webp"; ".gif"].

Definition isImage (rq : request) : bool :=
  some_included imageExtensions (url rq).

Definition isDataFile (rq : request) : bool :=
  includes (url rq) ".json".

(** *** The four handlers *)

(** [new Response(JSON.stringify({ error: 'Data unavailable offline' }),
    { headers: { 'Content-Type': 'application/json' } })] *)
Definition offline_data_response : response :=
  Response 200 [("Content-Type", "application/json")]
    (Json.stringify (Json.Object [("error", Json.Str "Data unavailable offline")])).

Definition handleStaticFile (rq : request) : async state (option response) :=
  try_catch
    (cachedResponse <- caches_match rq ;;
     match cachedResponse with
     | Some r => ret (Some r)
     | None =>
         networkResponse <- fetch rq ;;
         (if ok networkResponse then
            cache <- caches_open STATIC_CACHE ;;
            detached (cache_put cache rq networkResponse)
          else ret tt) ;;
         ret (Some networkResponse)
     end)
    (fun error =>
       console_error "Service Worker: Failed to fetch static file" error ;;
       if includes (url rq) ".html" then caches_match (GET "/offline.html")
       else throw error).

Definition handleImage (rq : request) : async state (option response) :=
  try_catch
    (cachedResponse <- caches_match rq ;;
     match cachedResponse with
     | Some r => ret (Some r)
     | None =>
         networkResponse <- fetch rq ;;
         (if ok networkResponse then
            cache <- caches_open IMAGE_CACHE ;;
            detached (cache_put cache rq networkResponse)
          else ret tt) ;;
         ret (Some networkResponse)
     end)
    (fun error =>
       console_error "Service Worker: Failed to fetch image" error ;;
       caches_match (GET "/assets/images/placeholder.jpg")).

Definition handleDataFile (rq : request) : async state (option response) :=
  try_catch
    (cachedResponse <- caches_match rq ;;
     match cachedResponse with
     | Some r => ret (Some r)
     | None =>
         networkResponse <- fetch rq ;;
         (if ok networkResponse then
            cache <- caches_open DYNAMIC_CACHE ;;
            detached (cache_put cache rq networkResponse)
          else ret tt) ;;
         ret (Some networkResponse)
     end)
    (fun error =>
       console_error "Service Worker: Failed to fetch data file" error ;;
       ret (Some offline_data_response)).

Definition handleDynamicRequest (rq : request) : async state (option response) :=
  try_catch
    (networkResponse <- fetch rq ;;
     (if ok networkResponse then
        cache <- caches_open DYNAMIC_CACHE ;;
        detached (cache_put cache rq networkResponse)
      else ret tt) ;;
     ret (Some networkResponse))
    (fun error =>
       console_error "Service Worker: Failed to fetch dynamic request" error ;;
       cachedResponse <- caches_match rq ;;
       match cachedResponse with
       | Some r => ret (Some r)
       | None => throw error
       end).

(** *** The fetch listener *)

Inductive classification := Static | Image | Data | Dynamic.

(** The branch of the listener's [if]/[else if] chain a request takes. *)
Definition classify (rq : request) : classification :=
  if isStaticFile rq then Static
  else if isImage rq then Image
  else if isDataFile rq then Data
  else Dynamic.

Definition handler (c : classification) : request -> async state (option response) :=
  match c with
  | Static => handleStaticFile
  | Image => handleImage
  | Data => handleDataFile
  | Dynamic => handleDynamicRequest
  end.

(** What the listener decides for a request: leave it to the browser
    (no [respondWith]) or answer it with the handler of its class. *)
Definition route (rq : request) : option classification :=
  if negb (String.eqb (method rq) "GET") then None
  else Some (classify rq).

Definition on_fetch (rq : request) : option (async state (option response)) :=
  match route rq with
  | None => None
  | Some c => Some (handler c rq)
  end.

End Network.

End Sw.

(** ** Regular expressions of the shape the loader builds *)

Module RegExp.

(** The pattern language needed for [{{\s*KEY\s*}}]: literal code units
    and the greedy [\s*]. *)
Inductive atom :=
| Lit (c : ascii)
| Spaces.

Definition pattern := list atom.

(** [\s], on code units below 256: TAB, LF, VT, FF, CR, SPACE, NBSP. *)
Definition is_space (c : ascii) : bool :=
  let n := nat_of_ascii c in
  ((9 <=? n) && (n <=? 13)) || (n =? 32) || (n =? 160).

(** The characters with a meaning of their own in a pattern. *)
Definition is_syntax_char (c : ascii) : bool :=
  existsb (Ascii.eqb c)
    ["^"; "$"; "\"; "."; "*"; "+"; "?"; "("; ")"; "["; "]"; "{"; "}"; "|"]%char.

Fixpoint literal (s : string) : pattern :=
  match s with
  | EmptyString => []
  | String c s' => Lit c :: literal s'
  end.

Fixpoint all_chars (f : ascii -> bool) (s : string) : bool :=
  match s with
  | EmptyString => true
  | String c s' => f c && all_chars f s'
  end.

(** [new RegExp(`{{\\s*${key}\\s*}}`, 'g')] when [key] is made of
    ordinary pattern characters; a key with syntax characters denotes
    another expression (or none) and is not interpreted here. *)
Definition placeholder_pattern (key : string) : pattern :=
  literal "{{" ++ [Spaces] ++ literal key ++ [Spaces] ++ literal "}}".

Definition placeholder (key : string) : option pattern :=
  if all_chars (fun c => negb (is_syntax_char c)) key then Some (placeholder_pattern key)
  else None.

(** Backtracking match of [p] at the start of [s]: the length of the
    match the matcher finds first, [\s*] trying the longest run first. *)
Fixpoint exec_at (p : pattern) (s : string) : option nat :=
  match p with
  | [] => Some 0
  | Lit c :: p' =>
      match s with
      | String c' s' => if Ascii.eqb c c' then option_map S (exec_at p' s') else None
      | EmptyString => None
      end
  | Spaces :: p' =>
      (fix spaces (s : string) : option nat :=
         match s with
         | String c s' =>
             if is_space c then
               match spaces s' with
               | Some n => Some (S n)
               | None => exec_at p' s
               end
             else exec_at p' s
         | EmptyString => exec_at p' s
         end) s
  end.

Fixpoint take (n : nat) (s : string) : string :=
  match n, s with
  | S n', String c s' => String c (take n' s')
  | _, _ => ""
  end.

Fixpoint drop (n : nat) (s : string) : string :=
  match n, s with
  | S n', String _ s' => drop n' s'
  | _, _ => s
  end.

Section Substitution.
(** The matched text, the text before it and the text after it. *)
Variables matched before after : string.

(** The text a replacement string stands for at one match, for an
    expression without capture groups: [$$], [$&], [$`] and [$'] are
    expanded, any other [$] stands for itself. *)
Fixpoint substitution (replacement : string) : string :=
  match replacement with
  | EmptyString => ""
  | String a rest =>
      if Ascii.eqb a "$" then
        match rest with
        | String c r =>
            if Ascii.eqb c "$" then String "$" (substitution r)
            else if Ascii.eqb c "&" then matched +:+ substitution r
            else if Ascii.eqb c "`" then before +:+ substitution r
            else if Ascii.eqb c "'" then after +:+ substitution r
            else String a (substitution rest)
        | EmptyString => String a (substitution rest)
        end
      else String a (substitution rest)
  end.
End Substitution.

(** [s.replace(p, replacement)] for a global [p], scanning [s] from
    left to right; [before] is the text already passed and [skip] the
    number of code units still covered by the last match. *)
Fixpoint replace_from (p : pattern) (replacement before s : string) (skip : nat) : string :=
  match s with
  | EmptyString =>
      match skip, exec_at p "" with
      | O, Some _ => substitution "" before "" replacement
      | _, _ => ""
      end
  | String c s' =>
      match skip with
      | S k => replace_from p replacement (before +:+ String c "") s' k
      | O =>
          match exec_at p s with
          | Some O =>
              substitution "" before s replacement
              +:+ String c (replace_from p replacement (before +:+ String c "") s' 0)
          | Some (S n) =>
              substitution (take (S n) s) before (drop (S n) s) replacement
              +:+ replace_from p replacement (before +:+ String c "") s' n
          | None =>
              String c (replace_from p replacement (before +:+ String c "") s' 0)
          end
      end
  end.

Definition replace (s : string) (p : pattern) (replacement : string) : string :=
  replace_from p replacement "" s 0.

End RegExp.

(** ** The component loader, [assets/js/components.js] *)

Module Loader.
Import JsString Js Js.Notations.

Record response := Response {
  status : nat;
  statusText : string;
  body : string
}.

Definition ok (r : response) : bool :=
  (200 <=? status r) && (status r <=? 299).

Inductive event :=
| NetFetch (u : string)
| CacheSet (componentName html : string)
| ConsoleLog (msg : string)
| ConsoleError (msg : string) (e : error).

(** A loader instance: [this.componentCache] and what it did so far. *)
Record state := State {
  componentCache : gmap string string;
  events : list event
}.

Definition emit (e : event) : async state unit :=
  fun st => (Fulfilled tt, State (componentCache st) (events st ++ [e])).

(** The URLs fetched, in order. *)
Fixpoint fetched (evs : list event) : list string :=
  match evs with
  | [] => []
  | NetFetch u :: evs' => u :: fetched evs'
  | _ :: evs' => fetched evs'
  end.

(** [new ComponentLoader()] *)
Definition fresh : state := State ∅ [].

(** [this.componentCache.has(name)] followed by [.get(name)] *)
Definition componentCache_get (name : string) : async state (option string) :=
  fun st => (Fulfilled (componentCache st !! name), st).

(** [this.componentCache.set(name, html)] *)
Definition componentCache_set (name html : string) : async state unit :=
  fun st =>
    (Fulfilled tt,
     State (<[name := html]> (componentCache st)) (events st ++ [CacheSet name html])).

Definition in_quotes (s : string) : string :=
  String Json.dquote (s +:+ String Json.dquote "").

(** [String(n)] for a status code. *)
Definition string_of_nat (n : nat) : string :=
  DecimalString.NilZero.string_of_uint (Nat.to_uint n).

(** [s.trim()] *)
Fixpoint trimStart (s : string) : string :=
  match s with
  | EmptyString => ""
  | String c s' => if RegExp.is_space c then trimStart s' else s
  end.

Fixpoint trimEnd (s : string) : string :=
  match s with
  | EmptyString => ""
  | String c s' =>
      match trimEnd s' with
      | EmptyString => if RegExp.is_space c then "" else String c ""
      | t => String c t
      end
  end.

Definition trim (s : string) : string := trimEnd (trimStart s).

(** The part of the DOM the loader uses. *)
Class Dom := {
  document : Type;
  element : Type;
(** [new DOMParser().parseFromString(html, 'text/html')] *)
parseFromString : string -> document;
querySelector : document -> string -> option element;
outerHTML : element -> string;
innerHTML : element -> string
}.

Section WithEnvironment.
Context `{Dom}.
(** How [fetch(url)] settles, and [JSON.parse]. *)
Variable net : string -> settled response.
Variable JSON_parse : string -> settled Json.value.

Definition fetch (u : string) : async state response :=
  fun st => (net u, State (componentCache st) (events st ++ [NetFetch u])).

(** The fallback shared by the [header], [footer] and default cases:
    the body's inner markup, the empty string without a body. *)
Definition body_content (doc : document) : string :=
  match querySelector doc "body" with
  | Some body => innerHTML body
  | None => ""
  end.

Definition extractComponentContent (html componentName : string) : string :=
  if includes html "<!--" && includes html "Component Template -->" then
    trim html
  else
    let doc := parseFromString html in
    if String.eqb componentName "header" then
      match querySelector doc ".header__nav" with
      | Some headerNav => outerHTML headerNav
      | None => body_content doc
      end
    else if String.eqb componentName "footer" then
      match querySelector doc ".footer" with
      | Some footer => outerHTML footer
      | None => body_content doc
      end
    else if String.eqb componentName "anime-card" then
      match querySelector doc ".anime-card" with
      | Some animeCard => outerHTML animeCard
      | None => ""
      end
    else if String.eqb componentName "genre-card" then
      match querySelector doc ".genre-card" with
      | Some genreCard => outerHTML genreCard
      | None => ""
      end
    else body_content doc.

Definition loadComponent (componentName : string) : async state string :=
  cached <- componentCache_get componentName ;;
  match cached with
  | Some html => ret html
  | None =>
      try_catch
        (response <- fetch ("./components/" +:+ componentName +:+ "-template.html") ;;
         response <-
           (if negb (ok response) then
              response <- fetch ("./components/" +:+ componentName +:+ ".html") ;;
              if negb (ok response) then
                throw (Error ("HTTP " +:+ string_of_nat (status response) +:+ ": "
                              +:+ statusText response))
              else ret response
            else ret response) ;;
         let html := body response in
         let componentHTML := extractComponentContent html componentName in
         componentCache_set componentName componentHTML ;;
         emit (ConsoleLog ("ComponentLoader: Loaded component " +:+ in_quotes componentName)) ;;
         ret componentHTML)
        (fun error =>
           emit (ConsoleError
                   ("ComponentLoader: Failed to load component "
                    +:+ in_quotes componentName +:+ ":") error) ;;
           throw error)
  end.

(** [Object.keys(data)] paired with [data[key]]; [Object.keys(null)]
    throws. *)
Fixpoint indexed {A} (i : nat) (xs : list A) : list (string * A) :=
  match xs with
  | [] => []
  | x :: xs' => (string_of_nat i, x) :: indexed (S i) xs'
  end.

Fixpoint code_units (s : string) : list Json.value :=
  match s with
  | EmptyString => []
  | String c s' => Json.Str (String c "") :: code_units s'
  end.

Definition own_entries (data : Json.value) : settled (list (string * Json.value)) :=
  match data with
  | Json.Null => Rejected (TypeError "Cannot convert undefined or null to object")
  | Json.Bool _ | Json.Number _ => Fulfilled []
  | Json.Str s => Fulfilled (indexed 0 (code_units s))
  | Json.Array items => Fulfilled (indexed 0 items)
  | Json.Object members => Fulfilled members
  end.

(** One round of the [forEach]: every match of the key's placeholder is
    replaced. [None] when the key is outside [RegExp.placeholder]. *)
Definition substitute (processedTemplate : option string) (kv : string * Json.value)
    : option string :=
  match processedTemplate, RegExp.placeholder (fst kv) with
  | Some t, Some placeholder => Some (RegExp.replace t placeholder (Json.to_string (snd kv)))
  | _, _ => None
  end.

(** [dataString] is [None] for [null]. The [console.warn] of the catch
    branch is left out. The result is [None] only when a key of the data
    is outside the patterns [RegExp.placeholder] interprets. *)
Definition processComponentTemplate (template : string) (dataString : option string)
    : option string :=
  match dataString with
  | None => Some template
  | Some EmptyString => Some template
  | Some ds =>
      match JSON_parse ds with
      | Rejected _ => Some template
      | Fulfilled data =>
          match own_entries data with
          | Rejected _ => Some template
          | Fulfilled entries => fold_left substitute entries (Some template)
          end
      end
  end.

End WithEnvironment.

End Loader.

(** ** The specification's wording, for comparison *)

Module Spec.
Import JsString.

(** Section 4.1: suffix membership in ordered extension sets. *)
Definition classify_by_suffix (u : string) : Sw.classification :=
  if some_suffix [".html"; ".css"; ".js"; ".woff2"; ".svg"] u then Sw.Static
  else if some_suffix [".jpg"; ".jpeg"; ".png"; ".webp"; ".gif"] u then Sw.Image
  else if endsWith u ".json" then Sw.Data
  else Sw.Dynamic.

(** Section 4.2, network-first fallback: the entry of the dynamic bucket
    for the request, else the network error. *)
Definition dynamic_fallback (cs : list (string * gmap string Sw.response))
    (rq : Sw.request) (e : Js.error) : Js.settled (option Sw.response) :=
  match Sw.stored Sw.DYNAMIC_CACHE (Sw.url rq) cs with
  | Some r => Js.Fulfilled (Some r)
  | None => Js.Rejected e
  end.

(** Section 4.4: a template is text with [{{ key }}] holes, [l] and [r]
    being the white space around the key. *)
Inductive piece :=
| Text (s : string)
| Hole (l key r : string).

Definition hole_text (l key r : string) : string :=
  "{{" +:+ l +:+ key +:+ r +:+ "}}".

Fixpoint render (ps : list piece) : string :=
  match ps with
  | [] => ""
  | Text s :: ps' => s +:+ render ps'
  | Hole l key r :: ps' => hole_text l key r +:+ render ps'
  end.

Fixpoint value_of (key : string) (data : list (string * Json.value)) : option Json.value :=
  match data with
  | [] => None
  | (k, v) :: data' => if String.eqb k key then Some v else value_of key data'
  end.

(** Every hole whose key is in the data becomes the value; the others
    and the text stay. *)
Fixpoint fill (data : list (string * Json.value)) (ps : list piece) : string :=
  match ps with
  | [] => ""
  | Text s :: ps' => s +:+ fill data ps'
  | Hole l key r :: ps' =>
      match value_of key data with
      | Some v => Json.to_string v +:+ fill data ps'
      | None => hole_text l key r +:+ fill data ps'
      end
  end.

(** One key filled in: its holes become the value's text. *)
Fixpoint fill_key (key : string) (v : Json.value) (ps : list piece) : list piece :=
  match ps with
  | [] => []
  | Text s :: ps' => Text s :: fill_key key v ps'
  | Hole l k r :: ps' =>
      if String.eqb k key then Text (Json.to_string v) :: fill_key key v ps'
      else Hole l k r :: fill_key key v ps'
  end.

(** Keys, values and text for which holes are the only places a
    placeholder can match. *)
Definition plain_char (c : ascii) : bool :=
  negb (RegExp.is_syntax_char c) && negb (RegExp.is_space c).

Definition plain_key (key : string) : bool :=
  negb (String.eqb key "") && RegExp.all_chars plain_char key.

Definition brace_free (s : string) : bool :=
  RegExp.all_chars (fun c => negb (Ascii.eqb c "{")) s.

(** Text in which no placeholder can start: an opening brace is neither
    followed by another one nor the last character. *)
Fixpoint no_opening (s : string) : bool :=
  match s with
  | EmptyString => true
  | String c s' =>
      (if Ascii.eqb c "{" then
         match s' with
         | String c' _ => negb (Ascii.eqb c' "{")
         | EmptyString => false
         end
       else true)
      && no_opening s'
  end.

Definition dollar_free (s : string) : bool :=
  RegExp.all_chars (fun c => negb (Ascii.eqb c "$")) s.

Definition plain_value (v : Json.value) : bool :=
  dollar_free (Json.to_string v) && no_opening (Json.to_string v).

Definition plain_member (kv : string * Json.value) : bool :=
  plain_key (fst kv) && plain_value (snd kv).

(** A replacement text without replacement patterns: no [$] is followed
    by [$], [&], a backquote or a quote. *)
Fixpoint pattern_free (s : string) : bool :=
  match s with
  | EmptyString => true
  | String a rest =>
      (if Ascii.eqb a "$" then
         match rest with
         | String c _ =>
             negb (Ascii.eqb c "$" || Ascii.eqb c "&" || Ascii.eqb c "`" || Ascii.eqb c "'")
         | EmptyString => true
         end
       else true)
      && pattern_free rest
  end.

(** Values that stand for themselves as a replacement. *)
Definition literal_value (v : Json.value) : bool :=
  pattern_free (Json.to_string v) && no_opening (Json.to_string v).

Definition literal_member (kv : string * Json.value) : bool :=
  plain_key (fst kv) && literal_value (snd kv).

Definition well_formed (p : piece) : bool :=
  match p with
  | Text s => no_opening s
  | Hole l key r =>
      RegExp.all_chars RegExp.is_space l && plain_key key && RegExp.all_chars RegExp.is_space r
  end.

End Spec.

(** ** Concrete environments used in the examples *)

Module Examples.
Import Js.

(** A network that is down, and one that serves every URL. *)
Definition offline : Sw.request -> settled Sw.response :=
  fun _ => Rejected (TypeError "Failed to fetch").

Definition online : Sw.request -> settled Sw.response :=
  fun rq => Fulfilled (Sw.Response 200 [] ("content of " +:+ Sw.url rq)).

(** The cache store right after a first, successful installation. *)
Definition installed : Sw.state := snd (Sw.install online Sw.fresh).

(** The site after a redeployment, and the cache store once the page [/]
    was visited then. *)
Definition redeployed : Sw.request -> settled Sw.response :=
  fun rq => Fulfilled (Sw.Response 200 [] ("new content of " +:+ Sw.url rq)).

Definition revisited : Sw.state :=
  snd (Sw.handleDynamicRequest redeployed (Sw.GET "/") installed).

Definition cached_entry : Sw.response := Sw.Response 200 [] "cached".

Definition one_bucket : Sw.state :=
  Sw.State [(Sw.STATIC_CACHE, {[ "/assets/css/main.css" := cached_entry ]})] [].

Definition three_buckets : Sw.state :=
  Sw.State [("startanime-static-v1.0.0", ∅);
            ("startanime-static-v0.9.0", ∅);
            ("other-app-cache", ∅)] [].

(** A template file as the loader recognises it. *)
Definition header_template : string :=
  "<!-- Header Component Template --><nav>{{title}}</nav>".

(** A server without [header-template.html] but with [header.html]. *)
Definition components_server (u : string) : settled Loader.response :=
  if String.eqb u "./components/header.html" then
    Fulfilled (Loader.Response 200 "OK" header_template)
  else Fulfilled (Loader.Response 404 "Not Found" "").

(** A document model without elements: every query finds nothing. *)
Definition no_dom : Loader.Dom := {|
  Loader.document := string;
  Loader.element := Empty_set;
  Loader.parseFromString := fun html => html;
  Loader.querySelector := fun _ _ => None;
  Loader.outerHTML := fun e => match e with end;
  Loader.innerHTML := fun e => match e with end
|}.

(** A server with [header-template.html]. *)
Definition template_server (u : string) : settled Loader.response :=
  if String.eqb u "./components/header-template.html" then
    Fulfilled (Loader.Response 200 "OK" header_template)
  else Fulfilled (Loader.Response 404 "Not Found" "").

(** A [JSON.parse] that knows the documents of the examples. *)
Definition naruto : Json.value := Json.Object [("name", Json.Str "Naruto")].
Definition echo : Json.value := Json.Object [("name", Json.Str "$&")].
Definition chained : Json.value :=
  Json.Object [("first", Json.Str "{{second}}"); ("second", Json.Str "x")].
Definition spaced : Json.value := Json.Object [("name ", Json.Str "x")].

Definition parse (s : string) : settled Json.value :=
  if String.eqb s (Json.stringify naruto) then Fulfilled naruto
  else if String.eqb s (Json.stringify echo) then Fulfilled echo
  else if String.eqb s (Json.stringify chained) then Fulfilled chained
  else if String.eqb s (Json.stringify spaced) then Fulfilled spaced
  else if String.eqb s "{}" then Fulfilled (Json.Object [])
  else Rejected (SyntaxError "Unexpected token").

Definition name_template : list Spec.piece :=
  [Spec.Text "<p>"; Spec.Hole "" "name" ""; Spec.Text "</p>"].

End Examples.

(** ** More of [sw.js]: messages and cache utilities *)

Module Worker.
Import Js Js.Notations Sw.

(** The bucket each handler writes a fetched response to: data files go
    to the dynamic bucket. *)
Definition cache_of (c : classification) : string :=
  match c with
  | Static => STATIC_CACHE
  | Image => IMAGE_CACHE
  | Data => DYNAMIC_CACHE
  | Dynamic => DYNAMIC_CACHE
  end.

(** [Promise.all(xs.map(f))], the calls made in list order. *)
Fixpoint map_each {S A B : Type} (f : A -> async S B) (xs : list A) : async S (list B) :=
  match xs with
  | [] => ret []
  | x :: xs' => y <- f x ;; ys <- map_each f xs' ;; ret (y :: ys)
  end.

(** [clearOldCaches()] *)
Definition clearOldCaches : async state (list bool) :=
  cacheNames <- caches_keys ;;
  let oldCaches := List.filter is_old_cache cacheNames in
  map_each caches_delete oldCaches.

(** [blob.size] of a stored response: the length of its body. *)
Definition blob_size (r : response) : nat := String.length (body r).

(** [getCacheSize(cacheName)]; the sum does not depend on the order in
    which [cache.keys()] lists the entries. *)
Definition getCacheSize (cacheName : string) : async state nat :=
  cache <- caches_open cacheName ;;
  fun st =>
    (Fulfilled
       (match bucket cache (caches st) with
        | Some c => map_fold (fun _ r size => size + blob_size r) 0 c
        | None => 0
        end),
     st).

(** [event.data] of a message to the worker; a field that is missing is
    [None]. *)
Record message := Message {
  type : string;
  urls : option (list string);
  cacheName : option string
}.

Section Messages.
Variable net : request -> settled response.

(** The message listener; the result is the promise it hands to
    [event.waitUntil]. The three tests are independent in the source; at
    most one of them holds, so running them in sequence is the same. *)
Definition on_message (data : option message) : async state unit :=
  console_log ["Service Worker: Message received"] ;;
  match data with
  | None => ret tt
  | Some d =>
      (if String.eqb (type d) "SKIP_WAITING" then emit SkipWaiting else ret tt) ;;
      (if String.eqb (type d) "CACHE_URLS" then
         cache <- caches_open DYNAMIC_CACHE ;;
         match urls d with
         | Some us => cache_addAll net cache us
         | None => throw (TypeError "Failed to execute 'addAll' on 'Cache'")
         end
       else ret tt) ;;
      (if String.eqb (type d) "DELETE_CACHE" then
         _ <- caches_delete (match cacheName d with
                             | Some n => n
                             | None => "undefined"
                             end) ;;
         ret tt
       else ret tt)
  end.

End Messages.

End Worker.

(** ** More of the component loader: preloading, clearing, injecting *)

Module Components.
Import Js Js.Notations Loader.

(** [clearCache()] *)
Definition clearCache : async state unit :=
  fun st =>
    (Fulfilled tt, State ∅ (events st ++ [ConsoleLog "ComponentLoader: Cache cleared"])).

(** What a script does to the document. [None] as markup stands for
    markup outside the patterns [RegExp.placeholder] interprets. *)
Inductive dom_event :=
| SetInnerHTML (element : string) (html : option string)
| AddClass (element cls : string)
| DispatchEvent (name componentName element : string).

(** A page: its loader and what was done to its document. *)
Record page := Page {
  loader : state;
  document_log : list dom_event
}.

(** A method of the loader run on the page. *)
Definition on_loader {A} (m : async state A) : async page A :=
  fun pg =>
    let (result, st) := m (loader pg) in
    (result, Page st (document_log pg)).

Definition dom (e : dom_event) : async page unit :=
  fun pg => (Fulfilled tt, Page (loader pg) (document_log pg ++ [e])).

(** A template after substitution, as pieces: the holes whose key is in
    the data have become text. *)
Fixpoint fill_pieces (data : list (string * Json.value)) (ps : list Spec.piece)
    : list Spec.piece :=
  match ps with
  | [] => []
  | Spec.Text s :: ps' => Spec.Text s :: fill_pieces data ps'
  | Spec.Hole l key r :: ps' =>
      match Spec.value_of key data with
      | Some v => Spec.Text (Json.to_string v) :: fill_pieces data ps'
      | None => Spec.Hole l key r :: fill_pieces data ps'
      end
  end.

(** What a caller passes as [data], [null] and [undefined] apart: a
    plain value; a function or a symbol, for which [JSON.stringify]
    gives [undefined]; or a value on which [JSON.stringify] throws, such
    as a cyclic structure or a big integer other than zero. The last two
    kinds are truthy. *)
Inductive argument :=
| Value (v : Json.value)
| Unprintable
| Unserialisable (e : error).

(** A key that is spliced into the expression as ordinary characters. *)
Definition syntax_free (key : string) : bool :=
  RegExp.all_chars (fun c => negb (RegExp.is_syntax_char c)) key.

(** A settled promise awaited on the page. *)
Definition settle {A} (r : settled A) : async page A :=
  fun pg => (r, pg).

(** [data ? ... : ...] for a plain value. *)
Definition truthy (v : Json.value) : bool :=
  match v with
  | Json.Null => false
  | Json.Bool b => b
  | Json.Number text => negb (String.eqb text "0" || String.eqb text "NaN")
  | Json.Str s => negb (String.eqb s "")
  | Json.Array _ => true
  | Json.Object _ => true
  end.

(** [data ? JSON.stringify(data) : null]; [None] stands for [null] and
    for [undefined], which [processComponentTemplate] treats alike. *)
Definition stringified (data : option argument) : settled (option string) :=
  match data with
  | None => Fulfilled None
  | Some (Value v) => Fulfilled (if truthy v then Some (Json.stringify v) else None)
  | Some Unprintable => Fulfilled None
  | Some (Unserialisable e) => Rejected e
  end.

Section WithEnvironment.
Context `{Dom}.
Variable net : string -> settled response.
Variable JSON_parse : string -> settled Json.value.

Definition commonComponents : list string :=
  ["header"; "footer"; "anime-card"; "genre-card"].

(** Whether the files of a component are there for [loadComponent]: the
    template file answers successfully, or it answers with an error
    status and the plain file answers successfully. *)
Definition served (name : string) : bool :=
  match net ("./components/" +:+ name +:+ "-template.html") with
  | Fulfilled r =>
      ok r ||
      match net ("./components/" +:+ name +:+ ".html") with
      | Fulfilled r' => ok r'
      | Rejected _ => false
      end
  | Rejected _ => false
  end.

(** [preloadComponents()]; the [console.warn] of a failed load is left
    out. *)
Definition preloadComponents : async state unit :=
  for_each
    (fun componentName =>
       try_catch (_ <- loadComponent net componentName ;; ret tt) (fun error => ret tt))
    commonComponents.

(** [injectComponent(componentName, targetElement, data)]: [data] is
    [None] for [null] and [undefined], [targetElement] is [None] for
    [null] and [undefined] and an element of the document otherwise.
    Writing to a missing target throws. *)
Definition injectComponent (componentName : string) (targetElement : option string)
    (data : option argument) : async page bool :=
  try_catch
    (componentHTML <- on_loader (loadComponent net componentName) ;;
     dataString <- settle (stringified data) ;;
     let processedHTML := processComponentTemplate JSON_parse componentHTML dataString in
     match targetElement with
     | Some target =>
         dom (SetInnerHTML target processedHTML) ;;
         dom (AddClass target "component-loaded") ;;
         dom (DispatchEvent "componentInjected" componentName target) ;;
         ret true
     | None => throw (TypeError "Cannot set properties of null (setting 'innerHTML')")
     end)
    (fun error =>
       on_loader
         (emit (ConsoleError
                  ("ComponentLoader: Failed to inject component "
                   +:+ in_quotes componentName +:+ ":") error)) ;;
       ret false).

End WithEnvironment.

End Components.

(** ** More concrete environments *)

Module MoreExamples.
Import Js.

(** A server that has the header and the footer as plain files only and
    no card at all. *)
Definition partial_server (u : string) : settled Loader.response :=
  if String.eqb u "./components/header.html" then
    Fulfilled (Loader.Response 200 "OK" Examples.header_template)
  else if String.eqb u "./components/footer.html" then
    Fulfilled (Loader.Response 200 "OK" "<!-- Footer Component Template --><p>(c)</p>")
  else Fulfilled (Loader.Response 404 "Not Found" "").

(** A connection that drops every request. *)
Definition unreachable (u : string) : settled Loader.response :=
  Rejected (TypeError "Failed to fetch").

(** A network on which everything is missing. *)
Definition missing : Sw.request -> settled Sw.response :=
  fun _ => Fulfilled (Sw.Response 404 [] "Not Found").

(** A server whose card file has neither the template marker nor a card
    element. *)
Definition card_server (u : string) : settled Loader.response :=
  if String.eqb u "./components/anime-card-template.html" then
    Fulfilled (Loader.Response 200 "OK" "<div class='card'>{{title}}</div>")
  else Fulfilled (Loader.Response 404 "Not Found" "").

(** More data objects, and a [JSON.parse] that knows them as well. *)
Definition year : Json.value := Json.Object [("year", Json.Number "2002")].
Definition price : Json.value := Json.Object [("name", Json.Str "US$ 9.99")].

Definition title : Json.value := Json.Object [("title", Json.Str "StartAnime")].

Definition parse (s : string) : settled Json.value :=
  if String.eqb s (Json.stringify year) then Fulfilled year
  else if String.eqb s (Json.stringify price) then Fulfilled price
  else if String.eqb s (Json.stringify title) then Fulfilled title
  else Examples.parse s.

(** [Examples.header_template] as pieces. *)
Definition header_pieces : list Spec.piece :=
  [Spec.Text "<!-- Header Component Template --><nav>"; Spec.Hole "" "title" "";
   Spec.Text "</nav>"].

Definition name_and_year : list Spec.piece :=
  [Spec.Text "<p>"; Spec.Hole "" "name" ""; Spec.Text " ("; Spec.Hole " " "year" " ";
   Spec.Text ")</p>"].

Definition cache_urls : Worker.message :=
  Worker.Message "CACHE_URLS" (Some ["/api/list"; "/api/genres"]) None.

Definition delete_static : Worker.message :=
  Worker.Message "DELETE_CACHE" None (Some Sw.STATIC_CACHE).

End MoreExamples.

(** * Properties *)

(** ** Strings *)

Section StringFacts.
Import JsString.

Lemma append_nil_r (s : string) : s +:+ "" = s.
Proof. induction s as [|c s IH]; simpl; [reflexivity | now rewrite IH]. Qed.

Lemma append_assoc (a b c : string) : (a +:+ b) +:+ c = a +:+ b +:+ c.
Proof. induction a as [|x a IH]; simpl; [reflexivity | now rewrite IH]. Qed.

Lemma length_append (a b : string) :
  String.length (a +:+ b) = String.length a + String.length b.
Proof. induction a as [|x a IH]; simpl; [reflexivity | now rewrite IH]. Qed.

Lemma startsWith_iff (s p : string) :
  startsWith s p = true <-> exists t, s = p +:+ t.
Proof.
  revert s. induction p as [|a p IH]; intros s; destruct s as [|b s]; simpl.
  - split; [intros _; now exists "" | reflexivity].
  - split; [intros _; now exists (String b s) | reflexivity].
  - split; [discriminate | intros [t Ht]; discriminate].
  - rewrite andb_true_iff, Ascii.eqb_eq, IH. split.
    + intros [-> [t ->]]. now exists t.
    + intros [t Ht]. injection Ht as -> ->. split; [reflexivity | now exists t].
Qed.

Lemma includes_iff (s sub : string) :
  includes s sub = true <-> Substring sub s.
Proof.
  unfold Substring. induction s as [|c s IH].
  - cbn [includes]. rewrite orb_false_r, startsWith_iff. split.
    + intros [t Ht]. exists "", t. exact Ht.
    + intros [p [q Hq]]. destruct p; [now exists q | discriminate].
  - cbn [includes]. rewrite orb_true_iff, startsWith_iff, IH. split.
    + intros [[t Ht] | [p [q Hq]]].
      * exists "", t. exact Ht.
      * exists (String c p), q. simpl. now rewrite Hq.
    + intros [p [q Hq]]. destruct p as [|x p].
      * left. now exists q.
      * right. simpl in Hq. injection Hq as -> ->. now exists p, q.
Qed.

Lemma endsWith_iff (s suf : string) :
  endsWith s suf = true <-> Suffix suf s.
Proof.
  unfold Suffix. induction s as [|c s IH].
  - cbn [endsWith]. rewrite orb_false_r, String.eqb_eq. split.
    + intros <-. now exists "".
    + intros [p Hp]. destruct p; [exact Hp | discriminate].
  - cbn [endsWith]. rewrite orb_true_iff, String.eqb_eq, IH. split.
    + intros [<- | [p ->]]; [now exists "" | now exists (String c p)].
    + intros [p Hp]. destruct p as [|x p].
      * left. exact Hp.
      * right. simpl in Hp. injection Hp as -> ->. now exists p.
Qed.

Lemma Suffix_Substring (suf s : string) : Suffix suf s -> Substring suf s.
Proof. intros [p ->]. exists p, "". now rewrite append_nil_r. Qed.

Lemma Substring_trans (a b s : string) :
  Substring a b -> Substring b s -> Substring a s.
Proof.
  intros [p [q ->]] [p' [q' ->]]. exists (p' +:+ p), (q +:+ q').
  now rewrite !append_assoc.
Qed.

Lemma some_included_iff (exts : list string) (s : string) :
  some_included exts s = true <-> exists ext, In ext exts /\ Substring ext s.
Proof.
  unfold some_included. rewrite existsb_exists.
  split; intros [ext [Hin Hs]]; exists ext; split; try assumption;
    now apply includes_iff.
Qed.

Lemma some_included_false_iff (exts : list string) (s : string) :
  some_included exts s = false <-> forall ext, In ext exts -> ~ Substring ext s.
Proof.
  rewrite <- not_true_iff_false, some_included_iff. split.
  - intros Hno ext Hin Hs. apply Hno. now exists ext.
  - intros Hno [ext [Hin Hs]]. now apply (Hno ext).
Qed.

End StringFacts.

(** ** Request classification and routing *)

Section Classification.
Import JsString Js Sw.

Lemma json_contains_js (u : string) : Substring ".json" u -> Substring ".js" u.
Proof. apply Substring_trans. now exists "", "on". Qed.

Lemma isDataFile_isStaticFile (rq : request) :
  isDataFile rq = true -> isStaticFile rq = true.
Proof.
  unfold isDataFile, isStaticFile. rewrite includes_iff, some_included_iff.
  intros Hjson. exists ".js". split; [simpl; tauto | now apply json_contains_js].
Qed.

Lemma classify_not_Data (rq : request) : classify rq <> Data.
Proof.
  unfold classify. destruct (isStaticFile rq) eqn:Hstatic; [discriminate |].
  destruct (isImage rq); [discriminate |].
  destruct (isDataFile rq) eqn:Hdata; [| discriminate].
  apply isDataFile_isStaticFile in Hdata. congruence.
Qed.

(** C1. A GET request whose URL contains [.json] is routed as Static,
    because [.json] contains [.js] and the static test comes first; no
    request is routed as Data, so the fetch listener never answers with
    [handleDataFile]. *)
Theorem json_requests_never_reach_data_handler :
  (forall rq, method rq = "GET" -> includes (url rq) ".json" = true ->
              route rq = Some Static)
  /\ (forall rq, route rq <> Some Data)
  /\ (forall net rq m, on_fetch net rq = Some m ->
        exists c, c <> Data /\ m = handler net c rq).
Proof.
  split; [| split].
  - intros rq Hget Hjson. unfold route. rewrite Hget. simpl.
    unfold classify. now rewrite (isDataFile_isStaticFile rq Hjson).
  - intros rq. unfold route.
    destruct (negb (String.eqb (method rq) "GET")); [discriminate |].
    intros Heq. injection Heq. apply classify_not_Data.
  - intros net rq m. unfold on_fetch, route.
    destruct (negb (String.eqb (method rq) "GET")); [discriminate |].
    intros Heq. injection Heq as <-. exists (classify rq).
    split; [apply classify_not_Data | reflexivity].
Qed.

Lemma json_requests_never_reach_data_handler_witness :
  route (GET "/data/genres.json") = Some Static.
Proof.
  apply (proj1 json_requests_never_reach_data_handler); reflexivity.
Defined.

(** The classifier does not look at suffixes only: a query string after
    [.html] leaves the request Static, and a URL ending in [.json] is
    Static, where the suffix reading gives Dynamic and Data. *)
Lemma classify_differs_from_suffix_reading :
  (classify (GET "/index.html?source=pwa") = Static
   /\ Spec.classify_by_suffix "/index.html?source=pwa" = Dynamic)
  /\ (classify (GET "/data/genres.json") = Static
      /\ Spec.classify_by_suffix "/data/genres.json" = Data)
  /\ classify (GET "/data/genres.json") <> Spec.classify_by_suffix "/data/genres.json".
Proof. repeat split; try (vm_compute; reflexivity). vm_compute. discriminate. Qed.

(** C2, amended. The class is a function of the URL alone, decided by
    containment, in order: Static when the URL contains a static
    extension anywhere, else Image when it contains an image extension,
    and Dynamic when it contains none of the listed extensions. A URL
    ending in a static extension is therefore Static. *)
Theorem classify_by_containment (rq : request) :
  classify rq = classify (GET (url rq))
  /\ (classify rq = Static <->
        exists ext, In ext staticExtensions /\ Substring ext (url rq))
  /\ (classify rq = Image <->
        (forall ext, In ext staticExtensions -> ~ Substring ext (url rq))
        /\ exists ext, In ext imageExtensions /\ Substring ext (url rq))
  /\ ((forall ext, In ext (staticExtensions ++ imageExtensions ++ [".json"]) ->
         ~ Substring ext (url rq)) ->
      classify rq = Dynamic)
  /\ (forall ext, In ext staticExtensions -> endsWith (url rq) ext = true ->
        classify rq = Static).
Proof.
  assert (Hstatic : classify rq = Static <->
            exists ext, In ext staticExtensions /\ Substring ext (url rq)).
  { rewrite <- some_included_iff. unfold classify, isStaticFile.
    destruct (some_included staticExtensions (url rq)); [tauto |].
    destruct (isImage rq); [split; discriminate |].
    destruct (isDataFile rq); split; discriminate. }
  split; [reflexivity | split; [exact Hstatic | split; [| split]]].
  - rewrite <- some_included_false_iff, <- some_included_iff.
    unfold classify, isStaticFile, isImage.
    destruct (some_included staticExtensions (url rq)).
    + split; [discriminate | intros [? _]; discriminate].
    + destruct (some_included imageExtensions (url rq)); [tauto |].
      destruct (isDataFile rq); split; (discriminate || intros [_ ?]; discriminate).
  - intros Hnone. unfold classify.
    assert (Hs : isStaticFile rq = false).
    { apply some_included_false_iff. intros ext Hin. apply Hnone.
      apply in_or_app. now left. }
    assert (Hi : isImage rq = false).
    { apply some_included_false_iff. intros ext Hin. apply Hnone.
      apply in_or_app. right. apply in_or_app. now left. }
    assert (Hd : isDataFile rq = false).
    { apply not_true_iff_false. unfold isDataFile. rewrite includes_iff.
      apply Hnone. apply in_or_app. right. apply in_or_app. right. simpl. tauto. }
    now rewrite Hs, Hi, Hd.
  - intros ext Hin Hsuf. apply Hstatic. exists ext.
    split; [exact Hin | now apply Suffix_Substring, endsWith_iff].
Qed.

Lemma classify_by_containment_witness :
  classify (GET "/assets/css/main.css") = Static.
Proof.
  apply (proj2 (proj2 (proj2 (proj2
           (classify_by_containment (GET "/assets/css/main.css"))))) ".css").
  - simpl. tauto.
  - reflexivity.
Defined.

End Classification.

(** ** The cache store *)

Section CacheStore.
Import Js Sw.
Implicit Types (cs : list (string * gmap string response)) (u name : string).

Lemma match_all_Some cs u r :
  match_all cs u = Some r ->
  exists name b, In (name, b) cs /\ b !! u = Some r.
Proof.
  induction cs as [|[n c] cs IH]; simpl; [discriminate |].
  destruct (c !! u) as [r'|] eqn:Hc.
  - intros [= <-]. exists n, c. split; [now left | exact Hc].
  - intros Hm. destruct (IH Hm) as [name [b [Hin Hb]]].
    exists name, b. split; [now right | exact Hb].
Qed.

Lemma match_all_is_Some cs u :
  (exists name b, In (name, b) cs /\ is_Some (b !! u)) ->
  is_Some (match_all cs u).
Proof.
  induction cs as [|[n c] cs IH]; simpl.
  - intros [name [b [[] _]]].
  - intros [name [b [Hin Hb]]]. destruct (c !! u) as [r'|] eqn:Hc; [now exists r' |].
    apply IH. destruct Hin as [[= -> ->] | Hin].
    + rewrite Hc in Hb. now destruct Hb.
    + now exists name, b.
Qed.

Lemma bucket_app name cs cs' :
  bucket name (cs ++ cs') =
  match bucket name cs with Some c => Some c | None => bucket name cs' end.
Proof.
  induction cs as [|[n c] cs IH]; simpl; [reflexivity |].
  now destruct (String.eqb n name).
Qed.

Lemma bucket_None_iff name cs : bucket name cs = None <-> has_cache name cs = false.
Proof.
  unfold has_cache. induction cs as [|[n c] cs IH]; simpl; [tauto |].
  destruct (String.eqb n name); simpl; [split; discriminate | exact IH].
Qed.

Lemma bucket_update_cache name f cs :
  bucket name (update_cache name f cs) = f <$> bucket name cs.
Proof.
  unfold update_cache. induction cs as [|[n c] cs IH]; simpl; [reflexivity |].
  destruct (String.eqb n name) eqn:Hn; simpl; rewrite Hn; [reflexivity | exact IH].
Qed.

(** Opening a bucket adds no entry. *)
Lemma stored_after_open name name' u st :
  stored name' u (caches (snd (caches_open name st))) = stored name' u (caches st).
Proof.
  unfold caches_open, stored. simpl.
  destruct (has_cache name (caches st)) eqn:Hhas; [reflexivity |].
  simpl. rewrite bucket_app. destruct (bucket name' (caches st)) eqn:Hb; [reflexivity |].
  simpl. destruct (String.eqb name name'); [apply lookup_empty | reflexivity].
Qed.

Lemma bucket_after_open name st :
  is_Some (bucket name (caches (snd (caches_open name st)))).
Proof.
  unfold caches_open. simpl.
  destruct (has_cache name (caches st)) eqn:Hhas.
  - destruct (bucket name (caches st)) eqn:Hb; [now eexists |].
    apply bucket_None_iff in Hb. congruence.
  - simpl. rewrite bucket_app.
    destruct (bucket name (caches st)); [now eexists |].
    simpl. rewrite String.eqb_refl. now eexists.
Qed.

End CacheStore.

(** ** The cache-first handlers *)

Section CacheFirst.
Import Js Sw.
Variable net : request -> settled response.

Lemma caches_match_hit rq st r :
  method rq = "GET" ->
  match_all (caches st) (url rq) = Some r ->
  caches_match rq st = (Fulfilled (Some r), st).
Proof. intros Hget Hm. unfold caches_match. now rewrite Hget, Hm. Qed.

Lemma cache_first_hit c rq st r :
  c <> Dynamic ->
  method rq = "GET" ->
  match_all (caches st) (url rq) = Some r ->
  handler net c rq st = (Fulfilled (Some r), st).
Proof.
  intros Hc Hget Hm.
  destruct c; try contradiction; simpl;
    unfold handleStaticFile, handleImage, handleDataFile, try_catch, bind;
    now rewrite (caches_match_hit rq st r Hget Hm).
Qed.

(** C4. For a GET request of class Static, Image or Data that has an
    entry in the cache, the handler resolves with a stored entry for it
    and leaves the worker's state as it was: no fetch is issued and no
    cache write is made. *)
Theorem cache_hit_served_without_network c rq st :
  c <> Dynamic ->
  method rq = "GET" ->
  (exists name b, In (name, b) (caches st) /\ is_Some (b !! url rq)) ->
  exists r,
    (exists name b, In (name, b) (caches st) /\ b !! url rq = Some r)
    /\ handler net c rq st = (Fulfilled (Some r), st)
    /\ List.filter is_fetch (events (snd (handler net c rq st))) = List.filter is_fetch (events st)
    /\ List.filter is_put (events (snd (handler net c rq st))) = List.filter is_put (events st).
Proof.
  intros Hc Hget Hentry.
  destruct (match_all_is_Some _ _ Hentry) as [r Hr].
  exists r. rewrite (cache_first_hit c rq st r Hc Hget Hr).
  split; [now apply match_all_Some | repeat split].
Qed.

End CacheFirst.

Lemma cache_hit_served_without_network_witness :
  exists r,
    Sw.handler Examples.offline Sw.Static (Sw.GET "/assets/css/main.css") Examples.one_bucket
    = (Js.Fulfilled (Some r), Examples.one_bucket).
Proof.
  destruct (cache_hit_served_without_network Examples.offline Sw.Static
              (Sw.GET "/assets/css/main.css") Examples.one_bucket)
    as [r [_ [Hr _]]].
  - discriminate.
  - reflexivity.
  - exists Sw.STATIC_CACHE, {[ "/assets/css/main.css" := Examples.cached_entry ]}.
    split; [now left | now exists Examples.cached_entry].
  - now exists r.
Defined.

(** ** Activation *)

Section Activation.
Import Js Sw.

Lemma deleted_app (a b : list event) : deleted (a ++ b) = deleted a ++ deleted b.
Proof.
  induction a as [|e a IH]; simpl; [reflexivity |].
  destruct e; simpl; now rewrite IH.
Qed.

Lemma is_old_cache_iff (name : string) :
  is_old_cache name = true <->
  name <> STATIC_CACHE /\ name <> DYNAMIC_CACHE /\ name <> IMAGE_CACHE.
Proof.
  unfold is_old_cache.
  rewrite !andb_true_iff, !negb_true_iff, !String.eqb_neq. tauto.
Qed.

Lemma filter_all {A} (f : A -> bool) (l : list A) :
  (forall x, f x = true) -> List.filter f l = l.
Proof.
  intros Hf. induction l as [|x l IH]; simpl; [reflexivity |].
  rewrite Hf. now f_equal.
Qed.

(** The buckets and the deletions after the callback ran over [names]. *)
Lemma for_each_delete_if_old (names : list string) (st : state) :
  exists evs,
    for_each delete_if_old names st =
      (Fulfilled tt,
       State (List.filter (fun p => negb (existsb (String.eqb (fst p)) (List.filter is_old_cache names)))
                     (caches st))
             (events st ++ evs))
    /\ deleted evs = List.filter is_old_cache names
    /\ List.filter is_fetch evs = [].
Proof.
  revert st. induction names as [|n names IH]; intros st.
  - exists []. simpl. unfold ret. rewrite app_nil_r.
    repeat split. f_equal. destruct st as [cs evs]. simpl. f_equal.
    symmetry. now apply filter_all.
  - cbn [for_each]. unfold bind at 1. unfold delete_if_old at 1.
    destruct (is_old_cache n) eqn:Hold.
    + unfold bind, console_log, emit, caches_delete, ret. simpl.
      match goal with |- context [for_each delete_if_old names ?s] =>
        destruct (IH s) as [evs [Hrun [Hdel Hnf]]]; rewrite Hrun end.
      exists ([ConsoleLog ["Service Worker: Deleting old cache"; n]; CacheDelete n] ++ evs).
      simpl. rewrite Hold, Hdel, Hnf. repeat split. f_equal. f_equal.
      * clear. induction (caches st) as [|p cs IHcs]; simpl; [reflexivity |].
        destruct (String.eqb (fst p) n); simpl; [exact IHcs |].
        destruct (existsb _ _); simpl; [exact IHcs | now rewrite IHcs].
      * now rewrite <- !app_assoc.
    + unfold ret. destruct (IH st) as [evs [Hrun [Hdel Hnf]]]. rewrite Hrun.
      exists evs. simpl. rewrite Hold. repeat split; assumption.
Qed.

(** C5. Activation resolves after deleting exactly the buckets whose
    name is none of the three current names, in the order [caches.keys()]
    lists them, and keeps the others with their content; of
    [startanime-static-v1.0.0], [startanime-static-v0.9.0] and
    [other-app-cache] it deletes the last two and keeps the first. *)
Theorem activate_deletes_exactly_old_caches :
  (forall st,
     fst (activate st) = Fulfilled tt
     /\ caches (snd (activate st)) =
          List.filter (fun p => negb (is_old_cache (fst p))) (caches st)
     /\ exists evs,
          events (snd (activate st)) = events st ++ evs
          /\ deleted evs = List.filter is_old_cache (map fst (caches st)))
  /\ (forall name,
        is_old_cache name = false <->
        name = STATIC_CACHE \/ name = DYNAMIC_CACHE \/ name = IMAGE_CACHE)
  /\ map fst (caches (snd (activate Examples.three_buckets)))
       = ["startanime-static-v1.0.0"]
  /\ deleted (events (snd (activate Examples.three_buckets)))
       = ["startanime-static-v0.9.0"; "other-app-cache"].
Proof.
  split; [| split; [| split; reflexivity]].
  - intros st. unfold activate, bind, console_log, emit, caches_keys. simpl.
    match goal with |- context [for_each delete_if_old ?ns ?s] =>
      destruct (for_each_delete_if_old ns s) as [evs [Hrun [Hdel _]]]; rewrite Hrun end.
    simpl. split; [reflexivity | split].
    + apply filter_ext_in. intros p Hp. f_equal.
      assert (Hin : In (fst p) (map fst (caches st))) by now apply in_map.
      destruct (is_old_cache (fst p)) eqn:Hold.
      * apply existsb_exists. exists (fst p).
        split; [apply filter_In; now split | apply String.eqb_refl].
      * apply not_true_iff_false. rewrite existsb_exists.
        intros [n [Hn Heq]]. apply String.eqb_eq in Heq. subst n.
        apply filter_In in Hn. destruct Hn as [_ Hn]. congruence.
    + exists ([ConsoleLog ["Service Worker: Activating..."]] ++ evs
              ++ [ConsoleLog ["Service Worker: Activated"]; ClientsClaim]).
      split.
      * rewrite <- !app_assoc. reflexivity.
      * simpl. rewrite deleted_app, Hdel. simpl. apply app_nil_r.
  - intros name. rewrite <- not_true_iff_false, is_old_cache_iff.
    destruct (String.eqb_spec name STATIC_CACHE);
      destruct (String.eqb_spec name DYNAMIC_CACHE);
      destruct (String.eqb_spec name IMAGE_CACHE); tauto.
Qed.

End Activation.

Lemma activate_deletes_exactly_old_caches_witness :
  Sw.is_old_cache "startanime-images-v1.0.0" = false.
Proof.
  apply (proj1 (proj2 activate_deletes_exactly_old_caches) "startanime-images-v1.0.0").
  right. right. reflexivity.
Defined.

(** ** Installation *)

Section Installation.
Import Js Sw.
Variable net : request -> settled response.

Lemma fetch_every_None (urls : list string) :
  fetch_every net urls = None <->
  exists u, In u urls /\ forall r, net (GET u) = Fulfilled r -> ok r = false.
Proof.
  induction urls as [|u urls IH]; simpl.
  - split; [discriminate | intros [u [[] _]]].
  - destruct (net (GET u)) as [r|e] eqn:Hnet.
    + destruct (ok r) eqn:Hok.
      * destruct (fetch_every net urls) as [rs|].
        -- split; [discriminate |]. intros [u' [[<- | Hin] Hbad]].
           ++ specialize (Hbad r Hnet). congruence.
           ++ destruct IH as [_ IH']. discriminate IH'. now exists u'.
        -- split; [| reflexivity]. intros _. destruct IH as [IH' _].
           destruct (IH' eq_refl) as [u' [Hin Hbad]]. exists u'. split; [now right | exact Hbad].
      * split; [| reflexivity]. intros _. exists u. split; [now left |].
        intros r' Hr'. congruence.
    + split; [| reflexivity]. intros _. exists u. split; [now left |].
      intros r' Hr'. congruence.
Qed.

Lemma fetch_every_Some (urls : list string) rs :
  fetch_every net urls = Some rs ->
  map fst rs = urls /\
  forall u r, In (u, r) rs -> net (GET u) = Fulfilled r /\ ok r = true.
Proof.
  revert rs. induction urls as [|u urls IH]; simpl; intros rs.
  - intros [= <-]. split; [reflexivity | intros ? ? []].
  - destruct (net (GET u)) as [r|e] eqn:Hnet; [| discriminate].
    destruct (ok r) eqn:Hok; [| discriminate].
    destruct (fetch_every net urls) as [rs'|]; [| discriminate].
    intros [= <-]. destruct (IH rs' eq_refl) as [Hmap Hall].
    split; [simpl; now f_equal |].
    intros u' r' [[= <- <-] | Hin]; [now split | now apply Hall].
Qed.

Lemma store_batch_other (rs : list (string * response)) (c : gmap string response) u :
  ~ In u (map fst rs) ->
  fold_left (fun c p => <[fst p := snd p]> c) rs c !! u = c !! u.
Proof.
  revert c. induction rs as [|[u0 r0] rs IH]; intros c Hnot; [reflexivity |].
  simpl in *. rewrite IH by tauto. apply lookup_insert_ne. tauto.
Qed.

(** Writing a batch of fetched responses: every URL of the batch ends up
    with the response the network gave for it. *)
Lemma store_batch_lookup (rs : list (string * response)) (c : gmap string response) u r :
  (forall u r r', In (u, r) rs -> In (u, r') rs -> r = r') ->
  In (u, r) rs ->
  fold_left (fun c p => <[fst p := snd p]> c) rs c !! u = Some r.
Proof.
  revert c. induction rs as [|[u0 r0] rs IH]; intros c Hfun Hin; [destruct Hin |].
  simpl. destruct (in_dec string_dec u (map fst rs)) as [Hlater | Hnot].
  - apply in_map_iff in Hlater. destruct Hlater as [[u' r'] [Hu' Hin']].
    simpl in Hu'. subst u'.
    assert (r' = r) as -> by (apply (Hfun u); [now right | exact Hin]).
    apply IH; [| exact Hin']. intros u1 r1 r1' H1 H1'. apply (Hfun u1); now right.
  - rewrite store_batch_other by exact Hnot.
    destruct Hin as [[= -> ->] | Hin].
    + apply lookup_insert_eq.
    + exfalso. apply Hnot. apply in_map_iff. now exists (u, r).
Qed.

(** What [install] does, by whether every manifest URL was fetched. *)
Lemma install_run (st : state) :
  install net st =
    let opened := caches (snd (caches_open STATIC_CACHE st)) in
    let issued :=
      [ConsoleLog ["Service Worker: Installing..."];
       ConsoleLog ["Service Worker: Caching static files"]]
      ++ map (fun u => NetFetch (GET u)) STATIC_FILES in
    match fetch_every net STATIC_FILES with
    | Some rs =>
        (Fulfilled tt,
         State (update_cache STATIC_CACHE
                  (fun c => fold_left (fun c p => <[fst p := snd p]> c) rs c) opened)
               (events st ++ issued
                ++ map (fun p => CachePut STATIC_CACHE (fst p) (snd p)) rs
                ++ [ConsoleLog ["Service Worker: Static files cached"]; SkipWaiting]))
    | None =>
        (Fulfilled tt,
         State opened
               (events st ++ issued
                ++ [ConsoleError "Service Worker: Failed to cache static files"
                      addAll_failure]))
    end.
Proof.
  unfold install, bind, try_catch, console_log, console_error, emit, caches_open,
    cache_addAll.
  cbn -[STATIC_FILES fetch_every has_cache update_cache].
  destruct (fetch_every net STATIC_FILES) as [rs|];
    destruct (has_cache STATIC_CACHE (caches st));
    cbn -[STATIC_FILES update_cache]; rewrite <- ?app_assoc; reflexivity.
Qed.

Lemma In_map_not (A B : Type) (f : A -> B) (l : list A) (y : B) :
  (forall x, f x <> y) -> ~ In y (map f l).
Proof. intros Hf Hin. apply in_map_iff in Hin. destruct Hin as [x [Hx _]]. now apply (Hf x). Qed.

Lemma filter_map_none (A B : Type) (f : A -> B) (g : B -> bool) (l : list A) :
  (forall x, g (f x) = false) -> List.filter g (map f l) = [].
Proof. intros Hf. induction l as [|x l IH]; simpl; [reflexivity | now rewrite Hf]. Qed.

(** C3, amended. The install hook never rejects: a failure is caught and
    logged. When some manifest URL cannot be fetched with a successful
    response, no entry is written to any bucket and [skipWaiting] is not
    requested; the manifest is stored, every URL with the response the
    network gave, only when all of its URLs were fetched, and then
    [skipWaiting] is requested. *)
Theorem install_catches_failure_and_stores_all_or_nothing (st : state) :
  fst (install net st) = Fulfilled tt
  /\ ((exists u, In u STATIC_FILES /\ forall r, net (GET u) = Fulfilled r -> ok r = false) ->
      (forall name u,
         stored name u (caches (snd (install net st))) = stored name u (caches st))
      /\ exists evs,
           events (snd (install net st)) = events st ++ evs
           /\ List.filter is_put evs = []
           /\ ~ In SkipWaiting evs
           /\ In (ConsoleError "Service Worker: Failed to cache static files"
                    addAll_failure) evs)
  /\ ((forall u, In u STATIC_FILES -> exists r, net (GET u) = Fulfilled r /\ ok r = true) ->
      (forall u, In u STATIC_FILES ->
         exists r, net (GET u) = Fulfilled r
                   /\ stored STATIC_CACHE u (caches (snd (install net st))) = Some r)
      /\ In SkipWaiting (events (snd (install net st)))).
Proof.
  rewrite install_run. cbv zeta.
  destruct (fetch_every net STATIC_FILES) as [rs|] eqn:Hall.
  - split; [reflexivity | split].
    + intros Hbad. apply fetch_every_None in Hbad. congruence.
    + intros _. destruct (fetch_every_Some _ _ Hall) as [Hmap Hnet]. split.
      * intros u Hu. rewrite <- Hmap in Hu. apply in_map_iff in Hu.
        destruct Hu as [[u' r] [Hu' Hin]]. simpl in Hu'. subst u'.
        exists r. split; [now apply Hnet |].
        unfold stored. cbn [snd caches]. rewrite bucket_update_cache.
        destruct (bucket_after_open STATIC_CACHE st) as [c Hc]. rewrite Hc. simpl.
        apply store_batch_lookup; [| exact Hin].
        intros u1 r1 r1' H1 H1'. apply Hnet in H1, H1'. destruct H1, H1'. congruence.
      * cbn [snd events]. apply in_or_app. right. apply in_or_app. right.
        apply in_or_app. right. simpl. tauto.
  - split; [reflexivity | split].
    + intros _. split.
      * intros name u. cbn [snd caches]. apply stored_after_open.
      * eexists. split; [cbn [snd events]; reflexivity |]. split; [| split].
        -- rewrite !List.filter_app, filter_map_none by reflexivity. reflexivity.
        -- intros Hin. apply in_app_or in Hin. destruct Hin as [Hin | [Hin | []]].
           ++ apply in_app_or in Hin. destruct Hin as [[Hin | [Hin | []]] | Hin].
              ** discriminate.
              ** discriminate.
              ** revert Hin. now apply In_map_not.
           ++ discriminate.
        -- apply in_or_app. right. simpl. tauto.
    + intros Hgood. exfalso.
      destruct (proj1 (fetch_every_None _) Hall) as [u [Hu Hbad]].
      destruct (Hgood u Hu) as [r [Hr Hok]]. specialize (Hbad r Hr). congruence.
Qed.

End Installation.

Lemma install_catches_failure_and_stores_all_or_nothing_witness :
  Sw.stored Sw.STATIC_CACHE "/index.html"
    (Sw.caches (snd (Sw.install Examples.offline Sw.fresh)))
  = Sw.stored Sw.STATIC_CACHE "/index.html" (Sw.caches Sw.fresh)
  /\ In Sw.SkipWaiting (Sw.events (snd (Sw.install Examples.online Sw.fresh))).
Proof.
  split.
  - apply (proj1 (proj2
             (install_catches_failure_and_stores_all_or_nothing Examples.offline Sw.fresh))).
    exists "/index.html". split; [simpl; tauto | intros r Hr; discriminate].
  - apply (proj2 (proj2
             (install_catches_failure_and_stores_all_or_nothing Examples.online Sw.fresh))).
    intros u _. eexists. split; reflexivity.
Defined.

(** With the network down for the whole manifest the install hook still
    resolves, where the specification has it reject. *)
Lemma install_resolves_with_manifest_unreachable :
  In "/index.html" Sw.STATIC_FILES
  /\ Examples.offline (Sw.GET "/index.html") = Js.Rejected (Js.TypeError "Failed to fetch")
  /\ fst (Sw.install Examples.offline Sw.fresh) = Js.Fulfilled tt
  /\ ~ (exists e, fst (Sw.install Examples.offline Sw.fresh) = Js.Rejected e).
Proof.
  split; [simpl; tauto | split; [reflexivity | split; [reflexivity |]]].
  intros [e He]. discriminate He.
Qed.

(** ** The network-first handler *)

Section NetworkFirst.
Import Js Sw.
Variable net : request -> settled response.

Lemma stored_after_put name rq r st :
  method rq = "GET" ->
  stored name (url rq) (caches (snd (cache_put name rq r (snd (caches_open name st)))))
  = Some r.
Proof.
  intros Hget. unfold cache_put. rewrite Hget.
  change (String.eqb "GET" "GET") with true. cbn [snd caches].
  unfold stored. rewrite bucket_update_cache.
  destruct (bucket_after_open name st) as [c Hc]. rewrite Hc. simpl.
  apply lookup_insert_eq.
Qed.

(** C6, amended. The handler asks the network first. A response is
    returned as it is and, when it is successful, written to the dynamic
    bucket under the request's URL. When the fetch fails the handler
    returns the first entry for the request found in any bucket, in
    creation order, and rejects with the network error only when no
    bucket has one. *)
Theorem dynamic_request_network_first (rq : request) (st : state) :
  method rq = "GET" ->
  (exists evs, events (snd (handleDynamicRequest net rq st))
               = events st ++ NetFetch rq :: evs)
  /\ match net rq with
     | Fulfilled r =>
         fst (handleDynamicRequest net rq st) = Fulfilled (Some r)
         /\ (ok r = true ->
             stored DYNAMIC_CACHE (url rq)
               (caches (snd (handleDynamicRequest net rq st))) = Some r)
         /\ (ok r = false -> snd (handleDynamicRequest net rq st)
                             = State (caches st) (events st ++ [NetFetch rq]))
     | Rejected e =>
         caches (snd (handleDynamicRequest net rq st)) = caches st
         /\ fst (handleDynamicRequest net rq st) =
            match match_all (caches st) (url rq) with
            | Some r => Fulfilled (Some r)
            | None => Rejected e
            end
     end.
Proof.
  intros Hget.
  unfold handleDynamicRequest, try_catch, bind, fetch, detached, ret, throw,
    console_error, emit, caches_match.
  cbn -[caches_open cache_put]. rewrite Hget.
  destruct (net rq) as [r|e] eqn:Hnet; cbn -[caches_open cache_put].
  - destruct (ok r) eqn:Hok; cbn -[caches_open cache_put].
    + split; [| split; [reflexivity | split; [| discriminate]]].
      * unfold cache_put, caches_open. rewrite Hget. cbn [caches events].
        destruct (has_cache DYNAMIC_CACHE (caches st)); cbn -[update_cache];
          rewrite <- app_assoc; now eexists.
      * intros _.
        apply (stored_after_put DYNAMIC_CACHE rq r
                 (State (caches st) (events st ++ [NetFetch rq])) Hget).
    + split; [now exists [] | split; [reflexivity | split; [discriminate | reflexivity]]].
  - destruct (match_all (caches st) (url rq)); cbn;
      (split; [rewrite <- app_assoc; now eexists | split; reflexivity]).
Qed.

End NetworkFirst.

Lemma dynamic_request_network_first_witness :
  fst (Sw.handleDynamicRequest Examples.online (Sw.GET "/api/list") Sw.fresh)
  = Js.Fulfilled (Some (Sw.Response 200 [] "content of /api/list")).
Proof.
  exact (proj1 (proj2 (dynamic_request_network_first Examples.online
                         (Sw.GET "/api/list") Sw.fresh eq_refl))).
Defined.

(** Offline, the page [/] is served from the static bucket the
    installation filled, although the dynamic bucket has no entry for it;
    the specification's fallback would reject. Once the dynamic bucket has
    a newer entry for [/], the older one of the static bucket is still the
    one returned. *)
Lemma dynamic_fallback_serves_other_buckets :
  Sw.route (Sw.GET "/") = Some Sw.Dynamic
  /\ (Sw.stored Sw.DYNAMIC_CACHE "/" (Sw.caches Examples.installed) = None
      /\ Spec.dynamic_fallback (Sw.caches Examples.installed) (Sw.GET "/")
           (Js.TypeError "Failed to fetch")
         = Js.Rejected (Js.TypeError "Failed to fetch")
      /\ fst (Sw.handleDynamicRequest Examples.offline (Sw.GET "/") Examples.installed)
         = Js.Fulfilled (Some (Sw.Response 200 [] "content of /")))
  /\ (Sw.stored Sw.DYNAMIC_CACHE "/" (Sw.caches Examples.revisited)
      = Some (Sw.Response 200 [] "new content of /")
      /\ Spec.dynamic_fallback (Sw.caches Examples.revisited) (Sw.GET "/")
           (Js.TypeError "Failed to fetch")
         = Js.Fulfilled (Some (Sw.Response 200 [] "new content of /"))
      /\ fst (Sw.handleDynamicRequest Examples.offline (Sw.GET "/") Examples.revisited)
         = Js.Fulfilled (Some (Sw.Response 200 [] "content of /")))
  /\ fst (Sw.handleDynamicRequest Examples.offline (Sw.GET "/") Examples.installed)
     <> Spec.dynamic_fallback (Sw.caches Examples.installed) (Sw.GET "/")
          (Js.TypeError "Failed to fetch").
Proof. repeat split; try (vm_compute; reflexivity). vm_compute. discriminate. Qed.

(** ** Offline fallbacks *)

Section Fallbacks.
Import Js Sw.
Variable net : request -> settled response.

(** On a miss with the network down, [handleImage] resolves with
    whatever [caches.match] finds for the placeholder, which is
    [undefined] when no bucket holds it. *)
Lemma handleImage_offline (rq : request) (st : state) e :
  fst (caches_match rq st) = Fulfilled None ->
  net rq = Rejected e ->
  fst (handleImage net rq st)
  = Fulfilled (match_all (caches st) "/assets/images/placeholder.jpg").
Proof.
  unfold handleImage, try_catch, bind, fetch, caches_match, console_error, emit.
  cbn. intros [= ->] ->. reflexivity.
Qed.

(** X25. When [handleDataFile] is given a request that misses the cache
    and whose fetch fails, it resolves, without touching the buckets, with
    a successful response whose body is the JSON text of
    [{ error: 'Data unavailable offline' }] and whose only header is
    [Content-Type: application/json]. *)
Theorem data_fallback_is_json_error (rq : request) (st : state) e :
  fst (caches_match rq st) = Fulfilled None ->
  net rq = Rejected e ->
  fst (handleDataFile net rq st) = Fulfilled (Some offline_data_response)
  /\ caches (snd (handleDataFile net rq st)) = caches st
  /\ body offline_data_response
     = Json.stringify (Json.Object [("error", Json.Str "Data unavailable offline")])
  /\ body offline_data_response
     = "{" +:+ String Json.dquote ("error" +:+ String Json.dquote (":"
           +:+ String Json.dquote ("Data unavailable offline"
           +:+ String Json.dquote "}")))
  /\ headers offline_data_response = [("Content-Type", "application/json")]
  /\ ok offline_data_response = true.
Proof.
  unfold handleDataFile, try_catch, bind, fetch, caches_match, console_error, emit, ret.
  cbn -[offline_data_response]. intros [= ->] ->.
  repeat split.
Qed.

End Fallbacks.

Lemma data_fallback_is_json_error_witness :
  fst (Sw.handleDataFile Examples.offline (Sw.GET "/data/genres.json") Sw.fresh)
  = Js.Fulfilled (Some Sw.offline_data_response).
Proof.
  apply (data_fallback_is_json_error Examples.offline (Sw.GET "/data/genres.json")
           Sw.fresh (Js.TypeError "Failed to fetch")); reflexivity.
Defined.

(** C8. Right after a first installation, with the network down, a data
    file that is not cached gets no JSON error response: its URL contains
    [.js], so the fetch listener hands the request to [handleStaticFile],
    which rethrows the network error for a URL without [.html]. The
    handler written for data files, [handleDataFile], would answer the
    same request with the JSON error response. *)
Theorem data_request_offline_is_rejected :
  Sw.route (Sw.GET "/data/seasonal.json") = Some Sw.Static
  /\ fst (Sw.caches_match (Sw.GET "/data/seasonal.json") Examples.installed)
     = Js.Fulfilled None
  /\ (exists answer,
        Sw.on_fetch Examples.offline (Sw.GET "/data/seasonal.json") = Some answer
        /\ fst (answer Examples.installed) = Js.Rejected (Js.TypeError "Failed to fetch"))
  /\ fst (Sw.handleDataFile Examples.offline (Sw.GET "/data/seasonal.json")
            Examples.installed)
     = Js.Fulfilled (Some Sw.offline_data_response).
Proof.
  split; [reflexivity |]. split; [vm_compute; reflexivity |]. split.
  - eexists. split; [reflexivity |]. vm_compute. reflexivity.
  - vm_compute. reflexivity.
Qed.

(** C7. Right after a first installation, with the network down, an image
    that is not cached gets no response at all from [handleImage]: the
    handler resolves with [undefined], because the placeholder is not in
    the manifest and so in no bucket. *)
Theorem image_fallback_without_cached_placeholder :
  ~ In "/assets/images/placeholder.jpg" Sw.STATIC_FILES
  /\ Sw.route (Sw.GET "/assets/images/anime/naruto.jpg") = Some Sw.Image
  /\ fst (Sw.caches_match (Sw.GET "/assets/images/anime/naruto.jpg") Examples.installed)
     = Js.Fulfilled None
  /\ fst (Sw.handleImage Examples.offline (Sw.GET "/assets/images/anime/naruto.jpg")
            Examples.installed)
     = Js.Fulfilled None.
Proof.
  split; [| split; [reflexivity | split; vm_compute; reflexivity]].
  simpl. intros H. repeat (destruct H as [H | H]; [discriminate |]). exact H.
Qed.

(** ** The component loader's memo *)

Section Memo.
Import Js Loader.
Context `{Dom}.

Lemma fetched_app (a b : list event) : fetched (a ++ b) = fetched a ++ fetched b.
Proof.
  induction a as [|e a IH]; simpl; [reflexivity |].
  destruct e; simpl; now rewrite IH.
Qed.

(** A component in the memo is returned at once. *)
Lemma loadComponent_cached net name st html :
  componentCache st !! name = Some html ->
  loadComponent net name st = (Fulfilled html, st).
Proof.
  intros Hc. unfold loadComponent, bind, componentCache_get. now rewrite Hc.
Qed.

Lemma loadComponent_miss net name st html st1 :
  componentCache st !! name = None ->
  loadComponent net name st = (Fulfilled html, st1) ->
  componentCache st1 = <[name := html]> (componentCache st)
  /\ exists r,
       net ("./components/" +:+ name +:+ "-template.html") = Fulfilled r
       /\ fetched (events st1)
          = fetched (events st)
            ++ (if ok r then ["./components/" +:+ name +:+ "-template.html"]
                else ["./components/" +:+ name +:+ "-template.html";
                      "./components/" +:+ name +:+ ".html"]).
Proof.
  intros Hc. unfold loadComponent, bind, try_catch, componentCache_get, fetch,
    componentCache_set, emit, ret, throw.
  rewrite Hc. cbn -[extractComponentContent String.append].
  destruct (net ("./components/" +:+ name +:+ "-template.html")) as [r|e];
    cbn -[extractComponentContent String.append]; [| discriminate].
  destruct (ok r) eqn:Hok; cbn -[extractComponentContent String.append].
  - intros [= <- <-]. cbn -[String.append]. split; [reflexivity |].
    exists r. split; [reflexivity |]. rewrite Hok.
    rewrite !fetched_app. cbn -[String.append]. now rewrite !app_nil_r.
  - destruct (net ("./components/" +:+ name +:+ ".html")) as [r'|e'];
      cbn -[extractComponentContent String.append]; [| discriminate].
    destruct (ok r'); cbn -[extractComponentContent String.append]; [| discriminate].
    intros [= <- <-]. cbn -[String.append]. split; [reflexivity |].
    exists r. split; [reflexivity |]. rewrite Hok.
    rewrite !fetched_app. cbn -[String.append].
    now rewrite !app_nil_r, <- !app_assoc.
Qed.

(** C9, amended. After a load that succeeded, loading the same component
    again returns the same markup and changes nothing: no fetch, no write
    to the memo. All requests belong to the first load of a component
    not yet in the memo: one, for the template file, when that file is
    served, and a second one, for the plain file, when it is not. *)
Theorem loadComponent_second_call_is_memoized net net' name st html st1 :
  loadComponent net name st = (Fulfilled html, st1) ->
  loadComponent net' name st1 = (Fulfilled html, st1)
  /\ (componentCache st !! name = None ->
      exists r,
        net ("./components/" +:+ name +:+ "-template.html") = Fulfilled r
        /\ fetched (events st1)
           = fetched (events st)
             ++ (if ok r then ["./components/" +:+ name +:+ "-template.html"]
                 else ["./components/" +:+ name +:+ "-template.html";
                       "./components/" +:+ name +:+ ".html"])).
Proof.
  intros Hfirst. destruct (componentCache st !! name) as [h|] eqn:Hc.
  - rewrite (loadComponent_cached net name st h Hc) in Hfirst.
    injection Hfirst as <- <-. split; [| discriminate].
    now apply loadComponent_cached.
  - destruct (loadComponent_miss net name st html st1 Hc Hfirst) as [Hmemo [r [Hr Hreq]]].
    split.
    + apply loadComponent_cached. rewrite Hmemo. apply lookup_insert_eq.
    + intros _. now exists r.
Qed.

End Memo.

Lemma loadComponent_second_call_is_memoized_witness :
  Loader.loadComponent (H := Examples.no_dom) Examples.components_server "header"
    (snd (Loader.loadComponent (H := Examples.no_dom) Examples.template_server "header"
            Loader.fresh))
  = (Js.Fulfilled "<!-- Header Component Template --><nav>{{title}}</nav>",
     snd (Loader.loadComponent (H := Examples.no_dom) Examples.template_server "header"
            Loader.fresh)).
Proof.
  apply (loadComponent_second_call_is_memoized (H := Examples.no_dom)
           Examples.template_server Examples.components_server "header" Loader.fresh).
  reflexivity.
Defined.

(** When only [header.html] is served, loading [header] twice returns the
    same markup twice and costs two requests, not one. *)
Lemma loading_twice_can_take_two_requests :
  fst (Loader.loadComponent (H := Examples.no_dom) Examples.components_server "header"
         Loader.fresh)
  = Js.Fulfilled Examples.header_template
  /\ fst (Loader.loadComponent (H := Examples.no_dom) Examples.components_server "header"
            (snd (Loader.loadComponent (H := Examples.no_dom) Examples.components_server
                    "header" Loader.fresh)))
     = Js.Fulfilled Examples.header_template
  /\ Loader.fetched
       (Loader.events
          (snd (Loader.loadComponent (H := Examples.no_dom) Examples.components_server
                  "header"
                  (snd (Loader.loadComponent (H := Examples.no_dom)
                          Examples.components_server "header" Loader.fresh)))))
     = ["./components/header-template.html"; "./components/header.html"]
  /\ length
       (Loader.fetched
          (Loader.events
             (snd (Loader.loadComponent (H := Examples.no_dom) Examples.components_server
                     "header"
                     (snd (Loader.loadComponent (H := Examples.no_dom)
                             Examples.components_server "header" Loader.fresh))))))
     <> 1.
Proof. repeat split; try (vm_compute; reflexivity). vm_compute. discriminate. Qed.

(** ** Matching a placeholder *)

Section Matching.
Import RegExp.
Implicit Types (p q : pattern) (s t a : string) (c : ascii).

Lemma all_chars_app f s t : all_chars f (s +:+ t) = all_chars f s && all_chars f t.
Proof.
  induction s as [|c s IH]; simpl; [reflexivity |].
  now rewrite IH, andb_assoc.
Qed.

Lemma all_chars_impl (f g : ascii -> bool) s :
  (forall c, f c = true -> g c = true) -> all_chars f s = true -> all_chars g s = true.
Proof.
  intros Hfg. induction s as [|c s IH]; simpl; [reflexivity |].
  rewrite !andb_true_iff. intros [Hc Hs]. split; [now apply Hfg | now apply IH].
Qed.

(** The equations of the matcher. *)
Lemma exec_at_lit_cons c c' p s :
  exec_at (Lit c :: p) (String c' s)
  = if Ascii.eqb c c' then option_map S (exec_at p s) else None.
Proof. reflexivity. Qed.

Lemma exec_at_spaces_cons c p s :
  exec_at (Spaces :: p) (String c s)
  = if is_space c then
      match exec_at (Spaces :: p) s with
      | Some n => Some (S n)
      | None => exec_at p (String c s)
      end
    else exec_at p (String c s).
Proof. reflexivity. Qed.

(** A literal prefix is consumed as it stands. *)
Lemma exec_at_literal a q t :
  exec_at (literal a ++ q) (a +:+ t)
  = option_map (fun m => String.length a + m) (exec_at q t).
Proof.
  induction a as [|c a IH]; simpl.
  - now destruct (exec_at q t).
  - rewrite Ascii.eqb_refl, IH. now destruct (exec_at q t).
Qed.

(** [\s*] takes a run of white space when the rest matches after it. *)
Lemma exec_at_spaces_run a q t m :
  all_chars is_space a = true ->
  exec_at (Spaces :: q) t = Some m ->
  exec_at (Spaces :: q) (a +:+ t) = Some (String.length a + m).
Proof.
  intros Ha Ht. induction a as [|c a IH]; [exact Ht |].
  simpl in Ha. apply andb_true_iff in Ha. destruct Ha as [Hc Ha].
  cbn [String.append]. rewrite exec_at_spaces_cons, Hc, (IH Ha). reflexivity.
Qed.

(** [\s*] cannot help when what follows it cannot start with white
    space and fails after the run. *)
Lemma exec_at_spaces_fail a q t :
  (forall c s, is_space c = true -> exec_at q (String c s) = None) ->
  all_chars is_space a = true ->
  exec_at (Spaces :: q) t = None ->
  exec_at (Spaces :: q) (a +:+ t) = None.
Proof.
  intros Hq Ha Ht. induction a as [|c a IH]; [exact Ht |].
  simpl in Ha. apply andb_true_iff in Ha. destruct Ha as [Hc Ha].
  cbn [String.append]. rewrite exec_at_spaces_cons, Hc, (IH Ha). now apply Hq.
Qed.

End Matching.

Section Placeholders.
Import RegExp Spec.
Implicit Types (l key k r rest s t : string) (c : ascii).

Lemma plain_char_facts c :
  plain_char c = true ->
  is_space c = false /\ is_syntax_char c = false
  /\ Ascii.eqb "{" c = false /\ Ascii.eqb "}" c = false /\ Ascii.eqb c "{" = false.
Proof.
  unfold plain_char. rewrite andb_true_iff, !negb_true_iff. intros [Hsyn Hsp].
  repeat split; try assumption;
    match goal with
    | |- Ascii.eqb ?a ?b = false =>
        destruct (Ascii.eqb_spec a b) as [Heq | _]; [| reflexivity];
        exfalso; subst; vm_compute in Hsyn; discriminate Hsyn
    end.
Qed.

Lemma space_not_brace c : is_space c = true -> Ascii.eqb c "{" = false.
Proof.
  intros Hsp. destruct (Ascii.eqb_spec c "{") as [-> | _]; [| reflexivity].
  vm_compute in Hsp. discriminate Hsp.
Qed.

Lemma space_not_plain c c' : is_space c = true -> plain_char c' = true -> Ascii.eqb c' c = false.
Proof.
  intros Hsp Hpl. destruct (Ascii.eqb_spec c' c) as [-> | _]; [| reflexivity].
  apply plain_char_facts in Hpl. destruct Hpl as [Hns _]. congruence.
Qed.

Lemma plain_key_cons key :
  plain_key key = true ->
  exists c key', key = String c key' /\ plain_char c = true /\ all_chars plain_char key' = true.
Proof.
  unfold plain_key. destruct key as [|c key']; [discriminate |]. simpl.
  rewrite andb_true_iff. intros [Hc Hk]. now exists c, key'.
Qed.

Lemma plain_key_chars key : plain_key key = true -> all_chars plain_char key = true.
Proof. unfold plain_key. rewrite andb_true_iff. tauto. Qed.

Lemma plain_key_placeholder key :
  plain_key key = true -> placeholder key = Some (placeholder_pattern key).
Proof.
  intros Hk. unfold placeholder.
  rewrite (all_chars_impl plain_char _ key); [reflexivity | | now apply plain_key_chars].
  intros c Hc. apply plain_char_facts in Hc. destruct Hc as [_ [Hsyn _]]. now rewrite Hsyn.
Qed.

Lemma hole_text_app l key r rest :
  hole_text l key r +:+ rest = "{{" +:+ l +:+ key +:+ r +:+ "}}" +:+ rest.
Proof. unfold hole_text. now rewrite !append_assoc. Qed.

Lemma length_hole_text l key r :
  String.length (hole_text l key r)
  = 2 + (String.length l + (String.length key + (String.length r + 2))).
Proof. unfold hole_text. rewrite !length_append. reflexivity. Qed.

(** The closing part of a placeholder after the key. *)
Lemma exec_at_closing r rest :
  all_chars is_space r = true ->
  exec_at (Spaces :: literal "}}") (r +:+ "}}" +:+ rest) = Some (String.length r + 2).
Proof. intros Hr. now apply exec_at_spaces_run. Qed.

(** [\s*] takes nothing in front of a key. *)
Lemma exec_at_spaces_before_key q k t :
  plain_key k = true -> exec_at (Spaces :: q) (k +:+ t) = exec_at q (k +:+ t).
Proof.
  intros Hk. destruct (plain_key_cons k Hk) as [c [k' [-> [Hc _]]]].
  apply plain_char_facts in Hc. destruct Hc as [Hns _].
  cbn [String.append]. now rewrite exec_at_spaces_cons, Hns.
Qed.

(** A hole for [k] is matched in full by the placeholder of [k]. *)
Lemma exec_at_own_hole l k r rest :
  all_chars is_space l = true -> plain_key k = true -> all_chars is_space r = true ->
  exec_at (placeholder_pattern k) (hole_text l k r +:+ rest)
  = Some (String.length (hole_text l k r)).
Proof.
  intros Hl Hk Hr. rewrite hole_text_app, length_hole_text.
  unfold placeholder_pattern. rewrite exec_at_literal.
  change ([Spaces] ++ literal k ++ [Spaces] ++ literal "}}")
    with (Spaces :: (literal k ++ Spaces :: literal "}}")).
  rewrite (exec_at_spaces_run l _ _ (String.length k + (String.length r + 2)) Hl);
    [reflexivity |].
  rewrite exec_at_spaces_before_key by exact Hk.
  rewrite exec_at_literal, exec_at_closing by exact Hr. reflexivity.
Qed.

(** After a key other than [k], the placeholder of [k] cannot close. *)
Lemma exec_at_other_key k key r rest :
  all_chars plain_char k = true -> all_chars plain_char key = true ->
  all_chars is_space r = true -> k <> key ->
  exec_at (literal k ++ Spaces :: literal "}}") (key +:+ r +:+ "}}" +:+ rest) = None.
Proof.
  revert key. induction k as [|a k IH]; intros key Hk Hkey Hr Hne.
  - destruct key as [|c key]; [contradiction |].
    simpl in Hkey. apply andb_true_iff in Hkey. destruct Hkey as [Hc _].
    apply plain_char_facts in Hc. destruct Hc as [Hns [_ [_ [Hcl _]]]].
    cbn [literal app String.append]. rewrite exec_at_spaces_cons, Hns.
    cbn [literal]. now rewrite exec_at_lit_cons, Hcl.
  - simpl in Hk. apply andb_true_iff in Hk. destruct Hk as [Ha Hk].
    cbn [literal app]. destruct key as [|c key].
    + cbn [String.append]. destruct r as [|c r].
      * cbn [String.append]. rewrite exec_at_lit_cons.
        apply plain_char_facts in Ha. destruct Ha as [_ [_ [_ [Hcl _]]]].
        rewrite Ascii.eqb_sym in Hcl. now rewrite Hcl.
      * simpl in Hr. apply andb_true_iff in Hr. destruct Hr as [Hc _].
        cbn [String.append]. now rewrite exec_at_lit_cons, (space_not_plain c a).
    + simpl in Hkey. apply andb_true_iff in Hkey. destruct Hkey as [_ Hkey].
      cbn [String.append]. rewrite exec_at_lit_cons.
      destruct (Ascii.eqb_spec a c) as [-> | _]; [| reflexivity].
      rewrite IH; [reflexivity | assumption.. |]. congruence.
Qed.

(** A hole for another key is not matched by the placeholder of [k]. *)
Lemma exec_at_other_hole l k key r rest :
  all_chars is_space l = true -> plain_key k = true -> plain_key key = true ->
  all_chars is_space r = true -> k <> key ->
  exec_at (placeholder_pattern k) (hole_text l key r +:+ rest) = None.
Proof.
  intros Hl Hk Hkey Hr Hne. rewrite hole_text_app.
  unfold placeholder_pattern. rewrite exec_at_literal.
  change ([Spaces] ++ literal k ++ [Spaces] ++ literal "}}")
    with (Spaces :: (literal k ++ Spaces :: literal "}}")).
  rewrite exec_at_spaces_fail; [reflexivity | | exact Hl |].
  - intros c s Hc. destruct (plain_key_cons k Hk) as [a [k' [-> [Ha _]]]].
    cbn [literal app]. now rewrite exec_at_lit_cons, (space_not_plain c a).
  - rewrite exec_at_spaces_before_key by exact Hkey.
    apply exec_at_other_key; try assumption; now apply plain_key_chars.
Qed.

(** No placeholder matches where the text does not start with two
    opening braces. *)
Lemma exec_at_no_brace k c s :
  Ascii.eqb c "{" = false -> exec_at (placeholder_pattern k) (String c s) = None.
Proof.
  intros Hc. unfold placeholder_pattern. cbn [literal app].
  rewrite exec_at_lit_cons. rewrite Ascii.eqb_sym in Hc. now rewrite Hc.
Qed.

Lemma exec_at_one_brace k c s :
  Ascii.eqb c "{" = false ->
  exec_at (placeholder_pattern k) (String "{" (String c s)) = None.
Proof.
  intros Hc. unfold placeholder_pattern. cbn [literal app].
  rewrite !exec_at_lit_cons. rewrite Ascii.eqb_sym in Hc. now rewrite Hc.
Qed.

End Placeholders.

(** ** Replacing the placeholders of one key *)

Section Replacement.
Import RegExp Spec.
Implicit Types (l key k r rest s t v before : string) (c : ascii) (ps : list piece).

Lemma substitution_plain m before after v :
  all_chars (fun c => negb (Ascii.eqb c "$")) v = true ->
  substitution m before after v = v.
Proof.
  induction v as [|a v IH]; simpl; [reflexivity |].
  rewrite andb_true_iff, negb_true_iff. intros [Ha Hv]. now rewrite Ha, IH.
Qed.

(** A replacement without patterns stands for itself at every match. *)
Lemma substitution_literal m before after v :
  pattern_free v = true -> substitution m before after v = v.
Proof.
  induction v as [|a v IH]; [reflexivity |].
  cbn [pattern_free substitution]. rewrite andb_true_iff. intros [Ha Hv].
  rewrite (IH Hv). destruct (Ascii.eqb a "$"); [| reflexivity].
  destruct v as [|c v]; [reflexivity |].
  rewrite negb_true_iff, !orb_false_iff in Ha. destruct Ha as [[[H1 H2] H3] H4].
  now rewrite H1, H2, H3, H4.
Qed.

Lemma dollar_free_pattern_free v :
  all_chars (fun c => negb (Ascii.eqb c "$")) v = true -> pattern_free v = true.
Proof.
  induction v as [|a v IH]; [reflexivity |].
  cbn [all_chars pattern_free]. rewrite andb_true_iff, negb_true_iff.
  intros [Ha Hv]. now rewrite Ha, IH.
Qed.

Lemma replace_from_no_match p v before c s :
  exec_at p (String c s) = None ->
  replace_from p v before (String c s) 0
  = String c (replace_from p v (before +:+ String c "") s 0).
Proof. intros Hno. cbn [replace_from]. now rewrite Hno. Qed.

Lemma replace_from_match p v before c s n :
  exec_at p (String c s) = Some (S n) ->
  replace_from p v before (String c s) 0
  = substitution (take (S n) (String c s)) before (drop (S n) (String c s)) v
    +:+ replace_from p v (before +:+ String c "") s n.
Proof. intros Hm. cbn [replace_from]. now rewrite Hm. Qed.

(** The text under a match is passed over. *)
Lemma replace_from_skip p v before s rest :
  replace_from p v before (s +:+ rest) (String.length s)
  = replace_from p v (before +:+ s) rest 0.
Proof.
  revert before. induction s as [|c s IH]; intros before.
  - now rewrite append_nil_r.
  - cbn [String.append String.length replace_from]. rewrite IH.
    rewrite append_assoc. reflexivity.
Qed.

(** Text in which no placeholder can start is copied. *)
Lemma replace_from_text k v before s rest :
  no_opening s = true ->
  replace_from (placeholder_pattern k) v before (s +:+ rest) 0
  = s +:+ replace_from (placeholder_pattern k) v (before +:+ s) rest 0.
Proof.
  revert before. induction s as [|c s IH]; intros before Hs.
  - now rewrite append_nil_r.
  - cbn [no_opening] in Hs. apply andb_true_iff in Hs. destruct Hs as [Hc Hs].
    cbn [String.append].
    rewrite replace_from_no_match.
    + rewrite IH by exact Hs. rewrite append_assoc. reflexivity.
    + destruct (Ascii.eqb_spec c "{") as [-> | Hne].
      * destruct s as [|c' s]; [discriminate Hc |].
        apply negb_true_iff in Hc. cbn [String.append]. now apply exec_at_one_brace.
      * apply exec_at_no_brace. now apply Ascii.eqb_neq.
Qed.

Lemma brace_free_no_opening s : brace_free s = true -> no_opening s = true.
Proof.
  unfold brace_free. induction s as [|c s IH]; simpl; [reflexivity |].
  rewrite andb_true_iff, negb_true_iff. intros [Hc Hs]. now rewrite Hc, IH.
Qed.

Lemma brace_free_inside l key r :
  all_chars is_space l = true -> plain_key key = true -> all_chars is_space r = true ->
  brace_free (l +:+ key +:+ r +:+ "}}") = true.
Proof.
  intros Hl Hkey Hr. unfold brace_free. rewrite !all_chars_app, !andb_true_iff.
  repeat split; try reflexivity.
  - apply (all_chars_impl is_space); [| exact Hl].
    intros c Hc. now rewrite space_not_brace.
  - apply (all_chars_impl plain_char); [| now apply plain_key_chars].
    intros c Hc. apply plain_char_facts in Hc. destruct Hc as [_ [_ [_ [_ Hc]]]].
    now rewrite Hc.
  - apply (all_chars_impl is_space); [| exact Hr].
    intros c Hc. now rewrite space_not_brace.
Qed.

(** A hole for [k] is replaced by the value. *)
Lemma replace_from_own_hole l k r v before rest :
  all_chars is_space l = true -> plain_key k = true -> all_chars is_space r = true ->
  pattern_free v = true ->
  replace_from (placeholder_pattern k) v before (hole_text l k r +:+ rest) 0
  = v +:+ replace_from (placeholder_pattern k) v (before +:+ hole_text l k r) rest 0.
Proof.
  intros Hl Hk Hr Hv.
  pose proof (exec_at_own_hole l k r rest Hl Hk Hr) as Hm.
  unfold hole_text in *. cbn [String.append String.length] in *.
  rewrite (replace_from_match _ _ _ _ _ _ Hm), substitution_literal by exact Hv.
  f_equal.
  change (String "{" (l +:+ k +:+ r +:+ "}}") +:+ rest)
    with (String "{" ((l +:+ k +:+ r +:+ "}}") +:+ rest)) in *.
  rewrite (replace_from_skip _ _ _ (String "{" (l +:+ k +:+ r +:+ "}}")) rest).
  now rewrite append_assoc.
Qed.

(** A hole for another key is copied. *)
Lemma replace_from_other_hole l k key r v before rest :
  all_chars is_space l = true -> plain_key k = true -> plain_key key = true ->
  all_chars is_space r = true -> k <> key ->
  replace_from (placeholder_pattern k) v before (hole_text l key r +:+ rest) 0
  = hole_text l key r
    +:+ replace_from (placeholder_pattern k) v (before +:+ hole_text l key r) rest 0.
Proof.
  intros Hl Hk Hkey Hr Hne.
  pose proof (exec_at_other_hole l k key r rest Hl Hk Hkey Hr Hne) as Hno.
  pose proof (brace_free_inside l key r Hl Hkey Hr) as Hfree.
  unfold hole_text in *. cbn [String.append] in *.
  rewrite (replace_from_no_match _ _ _ _ _ Hno). f_equal.
  destruct (l +:+ key +:+ r +:+ "}}") as [|c inside] eqn:Hinside.
  { destruct l; [| discriminate].
    destruct (plain_key_cons key Hkey) as [c [key' [-> _]]]. discriminate. }
  pose proof Hfree as Hc. simpl in Hc. apply andb_true_iff in Hc.
  destruct Hc as [Hc _]. apply negb_true_iff in Hc.
  cbn [String.append].
  rewrite replace_from_no_match by now apply exec_at_one_brace. f_equal.
  change (String c (inside +:+ rest)) with (String c inside +:+ rest).
  rewrite replace_from_text by now apply brace_free_no_opening.
  now rewrite !append_assoc.
Qed.

Lemma plain_value_facts (x : Json.value) :
  plain_value x = true ->
  all_chars (fun c => negb (Ascii.eqb c "$")) (Json.to_string x) = true
  /\ no_opening (Json.to_string x) = true.
Proof. unfold plain_value, dollar_free. now rewrite andb_true_iff. Qed.

Lemma literal_value_facts (x : Json.value) :
  literal_value x = true ->
  pattern_free (Json.to_string x) = true /\ no_opening (Json.to_string x) = true.
Proof. unfold literal_value. now rewrite andb_true_iff. Qed.

Lemma plain_value_literal (x : Json.value) : plain_value x = true -> literal_value x = true.
Proof.
  intros Hx. destruct (plain_value_facts x Hx) as [Hdollar Hfree].
  unfold literal_value. now rewrite (dollar_free_pattern_free _ Hdollar), Hfree.
Qed.

Lemma plain_members_literal members :
  forallb plain_member members = true -> forallb literal_member members = true.
Proof.
  induction members as [|[k x] members IH]; [reflexivity |].
  cbn [forallb]. unfold plain_member at 1, literal_member at 1. cbn [fst snd].
  rewrite !andb_true_iff. intros [[Hk Hx] Hm].
  repeat split; [exact Hk | now apply plain_value_literal | now apply IH].
Qed.

(** One round of the loop fills the holes of its key. *)
Lemma replace_round k (x : Json.value) ps before :
  plain_key k = true -> literal_value x = true ->
  forallb well_formed ps = true ->
  replace_from (placeholder_pattern k) (Json.to_string x) before (render ps) 0
  = render (fill_key k x ps).
Proof.
  intros Hk Hx. destruct (literal_value_facts x Hx) as [Hdollar _].
  revert before. induction ps as [|[s | l key r] ps IH]; intros before Hps.
  - reflexivity.
  - simpl in Hps. apply andb_true_iff in Hps. destruct Hps as [Hs Hps].
    cbn [render fill_key]. rewrite replace_from_text by exact Hs. now rewrite IH.
  - simpl in Hps. rewrite !andb_true_iff in Hps. destruct Hps as [[[Hl Hkey] Hr] Hps].
    cbn [render fill_key]. destruct (String.eqb_spec key k) as [-> | Hne].
    + rewrite replace_from_own_hole by assumption. cbn [render]. now rewrite IH.
    + rewrite replace_from_other_hole by (try assumption; congruence).
      cbn [render]. now rewrite IH.
Qed.

Lemma fill_key_well_formed k (x : Json.value) ps :
  literal_value x = true -> forallb well_formed ps = true ->
  forallb well_formed (fill_key k x ps) = true.
Proof.
  intros Hx. destruct (literal_value_facts x Hx) as [_ Hfree].
  induction ps as [|[s | l key r] ps IH]; simpl; [reflexivity | |].
  - rewrite !andb_true_iff. intros [Hs Hps]. split; [exact Hs | now apply IH].
  - rewrite !andb_true_iff. intros [Hhole Hps].
    destruct (String.eqb key k); simpl; rewrite ?andb_true_iff;
      (split; [assumption || tauto | now apply IH]).
Qed.

Lemma fill_cons k (x : Json.value) members ps :
  fill ((k, x) :: members) ps = fill members (fill_key k x ps).
Proof.
  induction ps as [|[s | l key r] ps IH]; simpl; [reflexivity | now rewrite IH |].
  rewrite String.eqb_sym. destruct (String.eqb key k); simpl; now rewrite IH.
Qed.

End Replacement.

(** ** Template substitution *)

Section Templates.
Import Js Loader Spec.
Variable JSON_parse : string -> settled Json.value.

Lemma fold_substitute_literal members ps :
  forallb literal_member members = true ->
  forallb well_formed ps = true ->
  fold_left substitute members (Some (render ps)) = Some (fill members ps).
Proof.
  revert ps. induction members as [|[k x] members IH]; intros ps Hm Hps.
  - simpl. f_equal. clear Hps.
    induction ps as [|[s | l key r] ps IHps]; simpl; now rewrite ?IHps.
  - simpl in Hm. unfold literal_member in Hm at 1. simpl in Hm.
    rewrite !andb_true_iff in Hm. destruct Hm as [[Hk Hx] Hm].
    cbn [fold_left]. unfold substitute at 2. cbn [fst snd].
    rewrite (plain_key_placeholder k Hk). unfold RegExp.replace.
    rewrite (replace_round k x ps "" Hk Hx Hps).
    rewrite IH by (try assumption; now apply fill_key_well_formed).
    now rewrite fill_cons.
Qed.

Lemma fold_substitute members ps :
  forallb plain_member members = true ->
  forallb well_formed ps = true ->
  fold_left substitute members (Some (render ps)) = Some (fill members ps).
Proof.
  intros Hm Hps. apply fold_substitute_literal; [| exact Hps].
  now apply plain_members_literal.
Qed.


End Templates.


(** C10. With the data [{ name: '$&' }] the hole of [<p>{{name}}</p>] is
    not replaced by the value, as substitution has it, but by itself:
    the value is handed to [replace] as a replacement string, in which
    [$&] stands for the matched text. *)
Theorem dollar_value_is_not_inserted :
  Loader.processComponentTemplate Examples.parse (Spec.render Examples.name_template)
    (Some (Json.stringify Examples.echo))
  = Some "<p>{{name}}</p>"
  /\ Spec.render Examples.name_template = "<p>{{name}}</p>"
  /\ Examples.parse (Json.stringify Examples.echo)
     = Js.Fulfilled (Json.Object [("name", Json.Str "$&")])
  /\ Spec.fill [("name", Json.Str "$&")] Examples.name_template = "<p>$&</p>"
  /\ Loader.processComponentTemplate Examples.parse (Spec.render Examples.name_template)
       (Some (Json.stringify Examples.echo))
     <> Some (Spec.fill [("name", Json.Str "$&")] Examples.name_template).
Proof. repeat split; try (vm_compute; reflexivity). vm_compute. discriminate. Qed.

(** The keys are applied one after the other to the text as it then is:
    a value that contains the placeholder of a later key is filled in
    its turn, and a key with a trailing space fills the hole of the key
    without it. *)
Remark keys_are_applied_in_turn :
  (Loader.processComponentTemplate Examples.parse "{{first}}"
     (Some (Json.stringify Examples.chained))
   = Some "x"
   /\ Spec.fill [("first", Json.Str "{{second}}"); ("second", Json.Str "x")]
        [Spec.Hole "" "first" ""]
      = "{{second}}")
  /\ (Loader.processComponentTemplate Examples.parse "{{name }}"
        (Some (Json.stringify Examples.spaced))
      = Some "x"
      /\ Spec.fill [("name ", Json.Str "x")] [Spec.Hole "" "name" " "] = "{{name }}").
Proof. repeat split; vm_compute; reflexivity. Qed.

(** ** Cache-first handlers on a miss *)

Section CacheFirstMiss.
Import Js Sw Worker.
Variable net : request -> settled response.
Implicit Types (cs : list (string * gmap string response)) (u name : string).





Lemma stored_update_other name name' f cs u :
  (forall c, f c !! u = c !! u) ->
  stored name' u (update_cache name f cs) = stored name' u cs.
Proof.
  intros Hf. unfold stored, update_cache.
  induction cs as [|[n c] cs IH]; simpl; [reflexivity |].
  destruct (String.eqb n name); simpl; destruct (String.eqb n name'); try apply Hf;
    try reflexivity; exact IH.
Qed.

(** What a cache-first handler does on a miss when the network answers. *)
Lemma cache_first_miss_run c rq st r :
  c <> Dynamic -> method rq = "GET" ->
  match_all (caches st) (url rq) = None ->
  net rq = Fulfilled r ->
  handler net c rq st =
    (Fulfilled (Some r),
     if ok r then
       State (update_cache (cache_of c) (fun b => <[url rq := r]> b)
                (caches (snd (caches_open (cache_of c) st))))
             (events st ++ [NetFetch rq; CachePut (cache_of c) (url rq) r])
     else State (caches st) (events st ++ [NetFetch rq])).
Proof.
  intros Hc Hget Hmiss Hnet.
  destruct c; try contradiction; cbn [handler cache_of];
    unfold handleStaticFile, handleImage, handleDataFile, try_catch, bind, fetch,
      detached, ret, caches_match, cache_put;
    rewrite Hget, Hmiss; cbn -[caches_open update_cache]; rewrite Hnet;
    cbn -[caches_open update_cache];
    (destruct (ok r); cbn -[caches_open update_cache]; [| reflexivity]);
    unfold caches_open, has_cache; cbn -[update_cache existsb];
    destruct (existsb _ (caches st)); cbn -[update_cache];
    rewrite <- ?app_assoc; reflexivity.
Qed.

(** X1. On a miss answered by a successful response, each cache-first
    handler returns the response and stores it under the request's URL
    in its own bucket: static, images, and the dynamic bucket for data. *)
Theorem cache_first_miss_writes_through c rq st r :
  c <> Dynamic -> method rq = "GET" ->
  match_all (caches st) (url rq) = None ->
  net rq = Fulfilled r -> ok r = true ->
  fst (handler net c rq st) = Fulfilled (Some r)
  /\ stored (cache_of c) (url rq) (caches (snd (handler net c rq st))) = Some r
  /\ events (snd (handler net c rq st))
     = events st ++ [NetFetch rq; CachePut (cache_of c) (url rq) r].
Proof.
  intros Hc Hget Hmiss Hnet Hok.
  rewrite (cache_first_miss_run c rq st r Hc Hget Hmiss Hnet), Hok. cbn [fst snd caches events].
  split; [reflexivity | split; [| reflexivity]].
  unfold stored. rewrite bucket_update_cache.
  destruct (bucket_after_open (cache_of c) st) as [b Hb]. rewrite Hb. simpl.
  apply lookup_insert_eq.
Qed.


End CacheFirstMiss.

(** ** What the handlers do to the cache store *)

Section HandlerEffects.
Import Js Sw Worker.
Variable net : request -> settled response.

(** The buckets after a handler ran: as before, or with its bucket
    opened, or with its bucket opened and the request's URL written to
    it. *)
Lemma handler_caches c rq st :
  caches (snd (handler net c rq st)) = caches st
  \/ caches (snd (handler net c rq st)) = caches (snd (caches_open (cache_of c) st))
  \/ exists r,
       caches (snd (handler net c rq st))
       = update_cache (cache_of c) (fun b => <[url rq := r]> b)
           (caches (snd (caches_open (cache_of c) st))).
Proof.
  destruct c; cbn [handler cache_of];
    unfold handleStaticFile, handleImage, handleDataFile, handleDynamicRequest,
      try_catch, bind, fetch, detached, ret, throw, caches_match, cache_put,
      console_error, emit;
    cbn -[caches_open update_cache];
    destruct (String.eqb (method rq) "GET") eqn:Hget;
    repeat match goal with
      | |- context [match match_all ?cs ?u with _ => _ end] =>
          destruct (match_all cs u); cbn -[caches_open update_cache]
      | |- context [match net ?x with _ => _ end] =>
          destruct (net x) as [r|e]; cbn -[caches_open update_cache]
      | |- context [if ok ?r then _ else _] =>
          destruct (ok r); cbn -[caches_open update_cache]
      | |- context [if JsString.includes ?a ?b then _ else _] =>
          destruct (JsString.includes a b); cbn -[caches_open update_cache]
      end;
    first
      [ left; reflexivity
      | right; left; unfold caches_open, has_cache; cbn -[existsb];
        destruct (existsb _ (caches st)); reflexivity
      | right; right; exists r; unfold caches_open, has_cache; cbn -[update_cache existsb];
        destruct (existsb _ (caches st)); reflexivity ].
Qed.

(** X3. A response that is not successful, a 404 for instance, is
    handed to the page as it is and is not stored, by the network-first
    handler and by the cache-first handlers on a miss. *)
Theorem error_response_is_returned_not_cached c rq st r :
  c = Dynamic \/ fst (caches_match rq st) = Fulfilled None ->
  net rq = Fulfilled r -> ok r = false ->
  handler net c rq st
  = (Fulfilled (Some r), State (caches st) (events st ++ [NetFetch rq])).
Proof.
  intros Hmiss Hnet Hok.
  destruct c; cbn [handler];
    unfold handleStaticFile, handleImage, handleDataFile, handleDynamicRequest,
      try_catch, bind, fetch, ret;
    try (destruct Hmiss as [Hd | Hmiss]; [discriminate Hd |];
         unfold caches_match in *; cbn in Hmiss; injection Hmiss as Hmiss;
         rewrite Hmiss);
    cbn; rewrite Hnet; cbn; rewrite Hok; reflexivity.
Qed.

(** X4. When a static file misses the cache and the fetch fails, a URL
    containing [.html] gets whatever is cached for [/offline.html]
    (nothing, when it is not cached) and the error is swallowed; any
    other static file gets the network error. No bucket changes. *)
Theorem static_fallback_is_offline_page_for_html_only rq st e :
  fst (caches_match rq st) = Fulfilled None ->
  net rq = Rejected e ->
  fst (handleStaticFile net rq st)
  = (if JsString.includes (url rq) ".html"
     then Fulfilled (match_all (caches st) "/offline.html")
     else Rejected e)
  /\ caches (snd (handleStaticFile net rq st)) = caches st.
Proof.
  unfold handleStaticFile, try_catch, bind, fetch, throw, caches_match, console_error, emit.
  cbn. intros [= ->] ->. cbn.
  destruct (JsString.includes (url rq) ".html"); split; reflexivity.
Qed.

(** X5. [handleImage] and [handleDataFile] never reject, whatever the
    request, the cache and the network; [handleDataFile] always resolves
    with a response. *)
Theorem image_and_data_handlers_never_reject rq st :
  (exists answer, fst (handleImage net rq st) = Fulfilled answer)
  /\ (exists r, fst (handleDataFile net rq st) = Fulfilled (Some r)).
Proof.
  unfold handleImage, handleDataFile, try_catch, bind, fetch, detached, ret,
    caches_match, console_error, emit.
  cbn -[caches_open cache_put offline_data_response].
  destruct (if String.eqb (method rq) "GET" then match_all (caches st) (url rq) else None)
    as [cached|]; cbn -[caches_open cache_put offline_data_response].
  - split; eexists; reflexivity.
  - destruct (net rq) as [r|e]; cbn -[caches_open cache_put offline_data_response].
    + destruct (ok r); cbn -[caches_open cache_put offline_data_response];
        split; eexists; reflexivity.
    + split; eexists; reflexivity.
Qed.

Lemma bucket_update_cache_ne name name' f (cs : list (string * gmap string response)) :
  name <> name' ->
  bucket name' (update_cache name f cs) = bucket name' cs.
Proof.
  intros Hne. unfold update_cache.
  induction cs as [|[n b] cs IH]; simpl; [reflexivity |].
  destruct (String.eqb_spec n name) as [-> | Hn]; simpl.
  - destruct (String.eqb_spec name name'); [contradiction | exact IH].
  - destruct (String.eqb n name'); [reflexivity | exact IH].
Qed.

(** X6. A handler changes the cache store for the URL of its own request
    at most: every entry stored under another URL, in any bucket, is the
    same afterwards, and no bucket disappears. *)
Theorem handlers_leave_other_urls_alone c rq st :
  (forall name u, u <> url rq ->
     stored name u (caches (snd (handler net c rq st))) = stored name u (caches st))
  /\ (forall name, has_cache name (caches st) = true ->
        has_cache name (caches (snd (handler net c rq st))) = true).
Proof.
  destruct (handler_caches c rq st) as [-> | [-> | [r ->]]].
  - split; [reflexivity | tauto].
  - split; [intros name u _; apply stored_after_open |].
    intros name Hhas. unfold caches_open. cbn [snd].
    destruct (has_cache (cache_of c) (caches st)); [exact Hhas |].
    cbn [caches]. unfold has_cache in *. rewrite existsb_app, Hhas. reflexivity.
  - split.
    + intros name u Hu. rewrite stored_update_other.
      * apply stored_after_open.
      * intros b. now apply lookup_insert_ne.
    + intros name Hhas.
      destruct (has_cache name (update_cache _ _ _)) eqn:Hafter; [reflexivity |].
      apply bucket_None_iff in Hafter.
      destruct (decide (cache_of c = name)) as [<- | Hne].
      * rewrite bucket_update_cache in Hafter.
        destruct (bucket_after_open (cache_of c) st) as [b Hb].
        rewrite Hb in Hafter. discriminate.
      * rewrite bucket_update_cache_ne in Hafter by exact Hne.
        unfold caches_open in Hafter. cbn [snd] in Hafter.
        destruct (has_cache (cache_of c) (caches st)).
        -- apply bucket_None_iff in Hafter. congruence.
        -- cbn [caches] in Hafter. rewrite bucket_app in Hafter.
           destruct (bucket name (caches st)) eqn:Hb; [discriminate |].
           apply bucket_None_iff in Hb. congruence.
Qed.

End HandlerEffects.

Lemma cache_first_miss_writes_through_witness :
  Sw.stored Sw.STATIC_CACHE "/assets/js/app.js"
    (Sw.caches (snd (Sw.handler Examples.online Sw.Static (Sw.GET "/assets/js/app.js")
                       Sw.fresh)))
  = Some (Sw.Response 200 [] "content of /assets/js/app.js").
Proof.
  apply (cache_first_miss_writes_through Examples.online Sw.Static
           (Sw.GET "/assets/js/app.js") Sw.fresh); try reflexivity.
  discriminate.
Defined.


Lemma error_response_is_returned_not_cached_witness :
  Sw.handler MoreExamples.missing Sw.Static (Sw.GET "/assets/js/gone.js") Sw.fresh
  = (Js.Fulfilled (Some (Sw.Response 404 [] "Not Found")),
     Sw.State [] [Sw.NetFetch (Sw.GET "/assets/js/gone.js")]).
Proof.
  apply (error_response_is_returned_not_cached MoreExamples.missing Sw.Static
           (Sw.GET "/assets/js/gone.js") Sw.fresh (Sw.Response 404 [] "Not Found"));
    [right; reflexivity | reflexivity | reflexivity].
Defined.

Lemma static_fallback_is_offline_page_for_html_only_witness :
  fst (Sw.handleStaticFile Examples.offline (Sw.GET "/about.html") Examples.installed)
  = Js.Fulfilled None.
Proof.
  apply (proj1 (static_fallback_is_offline_page_for_html_only Examples.offline
                  (Sw.GET "/about.html") Examples.installed
                  (Js.TypeError "Failed to fetch") eq_refl eq_refl)).
Defined.

Lemma handlers_leave_other_urls_alone_witness :
  Sw.stored Sw.STATIC_CACHE "/index.html"
    (Sw.caches (snd (Sw.handler Examples.redeployed Sw.Static (Sw.GET "/assets/js/new.js")
                       Examples.installed)))
  = Sw.stored Sw.STATIC_CACHE "/index.html" (Sw.caches Examples.installed).
Proof.
  apply (proj1 (handlers_leave_other_urls_alone Examples.redeployed Sw.Static
                  (Sw.GET "/assets/js/new.js") Examples.installed)).
  discriminate.
Defined.

(** ** Activation, installation and messages together *)

Section Lifecycle.
Import Js Sw Worker.

Lemma activate_run (st : state) :
  exists evs,
    activate st
    = (Fulfilled tt,
       State (List.filter (fun p => negb (is_old_cache (fst p))) (caches st))
             (events st ++ evs))
    /\ deleted evs = List.filter is_old_cache (map fst (caches st))
    /\ In ClientsClaim evs.
Proof.
  unfold activate, bind, console_log, emit, caches_keys. cbn [fst snd caches events].
  match goal with |- context [for_each delete_if_old ?ns ?s] =>
    destruct (for_each_delete_if_old ns s) as [evs [Hrun [Hdel _]]]; rewrite Hrun end.
  cbn [caches events].
  exists ([ConsoleLog ["Service Worker: Activating..."]] ++ evs
          ++ [ConsoleLog ["Service Worker: Activated"]; ClientsClaim]).
  split; [| split].
  - f_equal. f_equal.
    + apply filter_ext_in. intros p Hp. f_equal.
      assert (Hin : In (fst p) (map fst (caches st))) by now apply in_map.
      destruct (is_old_cache (fst p)) eqn:Hold.
      * apply existsb_exists. exists (fst p).
        split; [apply filter_In; now split | apply String.eqb_refl].
      * apply not_true_iff_false. rewrite existsb_exists.
        intros [n [Hn Heq]]. apply String.eqb_eq in Heq. subst n.
        apply filter_In in Hn. destruct Hn as [_ Hn]. congruence.
    + now rewrite <- !app_assoc.
  - simpl. rewrite deleted_app, Hdel. simpl. apply app_nil_r.
  - apply in_or_app. right. apply in_or_app. right. simpl. tauto.
Qed.

Lemma map_each_delete (names : list string) (st : state) :
  exists results,
    map_each caches_delete names st
    = (Fulfilled results,
       State (List.filter (fun p => negb (existsb (String.eqb (fst p)) names)) (caches st))
             (events st ++ map CacheDelete names)).
Proof.
  revert st. induction names as [|n names IH]; intros st.
  - exists []. simpl. unfold ret. rewrite app_nil_r. destruct st as [cs evs]. simpl.
    f_equal. f_equal. symmetry. now apply filter_all.
  - cbn [map_each]. unfold bind at 1. unfold caches_delete at 1.
    destruct (IH (State (List.filter (fun p => negb (String.eqb (fst p) n)) (caches st))
                        (events st ++ [CacheDelete n]))) as [results Hrun].
    unfold bind at 1. rewrite Hrun. unfold ret.
    eexists. cbn [caches events]. f_equal. f_equal.
    + clear. induction (caches st) as [|p cs IHcs]; simpl; [reflexivity |].
      destruct (String.eqb (fst p) n); simpl; [exact IHcs |].
      destruct (existsb _ names); simpl; [exact IHcs | now rewrite IHcs].
    + now rewrite <- app_assoc.
Qed.

Lemma deleted_map_CacheDelete (names : list string) : deleted (map CacheDelete names) = names.
Proof. induction names as [|n names IH]; simpl; [reflexivity | now rewrite IH]. Qed.

(** X7. [clearOldCaches] leaves the same buckets as activation and
    deletes the same names in the same order; unlike activation it does
    not claim the clients. *)
Theorem clearOldCaches_agrees_with_activate (st : state) :
  caches (snd (clearOldCaches st)) = caches (snd (activate st))
  /\ (exists results, fst (clearOldCaches st) = Fulfilled results)
  /\ exists evs,
       events (snd (clearOldCaches st)) = events st ++ evs
       /\ deleted evs = List.filter is_old_cache (map fst (caches st))
       /\ ~ In ClientsClaim evs.
Proof.
  destruct (activate_run st) as [evs [Hact _]]. rewrite Hact.
  unfold clearOldCaches, bind, caches_keys. cbn [fst snd].
  destruct (map_each_delete (List.filter is_old_cache (map fst (caches st))) st)
    as [results Hrun].
  rewrite Hrun. cbn [fst snd caches events]. split; [| split].
  - apply filter_ext_in. intros p Hp. f_equal.
    assert (Hin : In (fst p) (map fst (caches st))) by now apply in_map.
    destruct (is_old_cache (fst p)) eqn:Hold.
    + apply existsb_exists. exists (fst p).
      split; [apply filter_In; now split | apply String.eqb_refl].
    + apply not_true_iff_false. rewrite existsb_exists.
      intros [n [Hn Heq]]. apply String.eqb_eq in Heq. subst n.
      apply filter_In in Hn. destruct Hn as [_ Hn]. congruence.
  - now exists results.
  - eexists. split; [reflexivity | split].
    + apply deleted_map_CacheDelete.
    + intros Hin. apply in_map_iff in Hin. destruct Hin as [n [Hn _]]. discriminate.
Qed.

(** X8. Activating twice is the same as activating once: the second
    activation finds nothing to delete and leaves every bucket as it is. *)
Theorem activate_is_idempotent (st : state) :
  caches (snd (activate (snd (activate st)))) = caches (snd (activate st))
  /\ exists evs,
       events (snd (activate (snd (activate st)))) = events (snd (activate st)) ++ evs
       /\ deleted evs = [].
Proof.
  destruct (activate_run st) as [evs1 [Hact1 _]]. rewrite Hact1. cbn [snd].
  match goal with |- context [activate ?s] =>
    destruct (activate_run s) as [evs2 [Hact2 [Hdel2 _]]]; rewrite Hact2 end.
  cbn [snd caches events] in *.
  assert (Hkept : forall cs : list (string * gmap string response),
            List.filter (fun p => negb (is_old_cache (fst p)))
              (List.filter (fun p => negb (is_old_cache (fst p))) cs)
            = List.filter (fun p => negb (is_old_cache (fst p))) cs).
  { intros cs. induction cs as [|p cs IH]; simpl; [reflexivity |].
    destruct (negb (is_old_cache (fst p))) eqn:Hp; simpl; rewrite ?Hp, IH; reflexivity. }
  assert (Hnone : forall cs : list (string * gmap string response),
            List.filter is_old_cache
              (map fst (List.filter (fun p => negb (is_old_cache (fst p))) cs)) = []).
  { intros cs. induction cs as [|p cs IH]; simpl; [reflexivity |].
    destruct (is_old_cache (fst p)) eqn:Hp; simpl; [exact IH |]. now rewrite Hp. }
  split; [apply Hkept |].
  exists evs2. split; [reflexivity |]. rewrite Hdel2. apply Hnone.
Qed.

End Lifecycle.

Section Precache.
Import Js Sw Worker.
Variable net : request -> settled response.
Implicit Types (cs : list (string * gmap string response)) (u name : string).

(** What [cache.addAll] leaves in its bucket when every URL was fetched. *)
Lemma addAll_stores name urls rs cs u :
  fetch_every net urls = Some rs -> is_Some (bucket name cs) -> In u urls ->
  exists r,
    net (GET u) = Fulfilled r
    /\ stored name u
         (update_cache name (fun c => fold_left (fun c p => <[fst p := snd p]> c) rs c) cs)
       = Some r.
Proof.
  intros Hall [b Hb] Hu. destruct (fetch_every_Some net _ _ Hall) as [Hmap Hnet].
  rewrite <- Hmap in Hu. apply in_map_iff in Hu.
  destruct Hu as [[u' r] [Hu' Hin]]. simpl in Hu'. subst u'.
  exists r. split; [now apply Hnet |].
  unfold stored. rewrite bucket_update_cache, Hb. simpl.
  apply store_batch_lookup; [| exact Hin].
  intros u1 r1 r1' H1 H1'. apply Hnet in H1, H1'. destruct H1, H1'. congruence.
Qed.

Lemma stored_kept_by_activation name u cs :
  is_old_cache name = false ->
  stored name u (List.filter (fun p => negb (is_old_cache (fst p))) cs) = stored name u cs.
Proof.
  intros Hname. unfold stored. induction cs as [|[n b] cs IH]; simpl; [reflexivity |].
  destruct (is_old_cache n) eqn:Hn; simpl.
  - destruct (String.eqb_spec n name) as [-> | _]; [congruence | exact IH].
  - destruct (String.eqb n name); [reflexivity | exact IH].
Qed.

Lemma stored_is_matched name u cs r :
  stored name u cs = Some r -> is_Some (match_all cs u).
Proof.
  unfold stored. induction cs as [|[n b] cs IH]; simpl; [discriminate |].
  destruct (b !! u) as [r'|] eqn:Hb; [now eexists |].
  destruct (String.eqb n name); [congruence | exact IH].
Qed.

Lemma dynamic_offline net' rq st e r :
  method rq = "GET" -> net' rq = Rejected e ->
  match_all (caches st) (url rq) = Some r ->
  fst (handleDynamicRequest net' rq st) = Fulfilled (Some r).
Proof.
  intros Hget Hnet Hm.
  unfold handleDynamicRequest, try_catch, bind, fetch, caches_match, console_error, emit.
  cbn. rewrite Hnet, Hget. cbn. now rewrite Hm.
Qed.

Lemma install_stores st u :
  (forall u, In u STATIC_FILES -> exists r, net (GET u) = Fulfilled r /\ ok r = true) ->
  In u STATIC_FILES ->
  exists r, net (GET u) = Fulfilled r
            /\ stored STATIC_CACHE u (caches (snd (install net st))) = Some r.
Proof.
  intros Hgood Hu. rewrite install_run. cbv zeta.
  destruct (fetch_every net STATIC_FILES) as [rs|] eqn:Hall.
  - cbn [snd caches]. apply (addAll_stores STATIC_CACHE STATIC_FILES rs _ u Hall);
      [apply bucket_after_open | exact Hu].
  - exfalso. destruct (proj1 (fetch_every_None net _) Hall) as [u' [Hu' Hbad]].
    destruct (Hgood u' Hu') as [r [Hr Hok]]. specialize (Hbad r Hr). congruence.
Qed.

(** X9. After an installation that fetched the whole manifest and the
    activation that follows, every manifest URL is answered by the fetch
    listener when the network is down; when the cache store was empty
    before, the answer is the response fetched at installation. *)
Theorem precached_urls_are_available_offline net' st u e :
  (forall u, In u STATIC_FILES -> exists r, net (GET u) = Fulfilled r /\ ok r = true) ->
  In u STATIC_FILES ->
  net' (GET u) = Rejected e ->
  exists answer r,
    on_fetch net' (GET u) = Some answer
    /\ fst (answer (snd (activate (snd (install net st))))) = Fulfilled (Some r)
    /\ (caches st = [] -> net (GET u) = Fulfilled r).
Proof.
  intros Hgood Hu Hdown.
  destruct (install_stores st u Hgood Hu) as [r0 [Hr0 Hstored]].
  destruct (activate_run (snd (install net st))) as [evs [Hact _]].
  set (st2 := snd (activate (snd (install net st)))).
  assert (Hst2 : stored STATIC_CACHE u (caches st2) = Some r0).
  { unfold st2. rewrite Hact. cbn [snd caches].
    now rewrite stored_kept_by_activation. }
  destruct (stored_is_matched _ _ _ _ Hst2) as [r Hr].
  exists (handler net' (classify (GET u)) (GET u)), r.
  split; [reflexivity | split].
  - destruct (classify (GET u)) eqn:Hclass;
      try (rewrite cache_first_hit with (r := r); [reflexivity | discriminate | reflexivity | exact Hr]).
    cbn [handler]. now apply (dynamic_offline net' (GET u) st2 e r).
  - intros Hempty. rewrite Hr0. f_equal.
    assert (Hone : exists b, caches st2 = [(STATIC_CACHE, b)]).
    { unfold st2. rewrite Hact, install_run. cbv zeta.
      unfold caches_open. rewrite Hempty.
      destruct (fetch_every net STATIC_FILES); cbn; eexists; reflexivity. }
    destruct Hone as [b Hb]. rewrite Hb in Hst2, Hr.
    unfold stored in Hst2. cbn in Hst2, Hr.
    destruct (b !! u); congruence.
Qed.

End Precache.

Lemma precached_urls_are_available_offline_witness :
  exists answer r,
    Sw.on_fetch Examples.offline (Sw.GET "/data/genres.json") = Some answer
    /\ fst (answer (snd (Sw.activate (snd (Sw.install Examples.online Sw.fresh)))))
       = Js.Fulfilled (Some r)
    /\ (Sw.caches Sw.fresh = [] ->
        Examples.online (Sw.GET "/data/genres.json") = Js.Fulfilled r).
Proof.
  apply (precached_urls_are_available_offline Examples.online Examples.offline Sw.fresh
           "/data/genres.json" (Js.TypeError "Failed to fetch")).
  - intros u _. eexists. split; reflexivity.
  - simpl. tauto.
  - reflexivity.
Defined.

(** ** Messages to the worker *)

Section Messaging.
Import Js Sw Worker.
Variable net : request -> settled response.

Lemma on_message_cache_urls st us cn :
  on_message net (Some (Message "CACHE_URLS" (Some us) cn)) st
  = cache_addAll net DYNAMIC_CACHE us
      (snd (caches_open DYNAMIC_CACHE
              (State (caches st)
                     (events st ++ [ConsoleLog ["Service Worker: Message received"]])))).
Proof.
  unfold on_message, bind, console_log, emit, ret, caches_open.
  cbn -[cache_addAll has_cache].
  destruct (cache_addAll net DYNAMIC_CACHE us _) as [[[]|e] st']; reflexivity.
Qed.

(** X10. A [CACHE_URLS] message stores all of its URLs in the dynamic
    bucket or none: when every URL is fetched with a successful response
    each is stored with that response; when one is not, nothing is
    stored and, unlike at installation, the failure is not caught. *)
Theorem cache_urls_message_is_all_or_nothing st us cn :
  ((forall u, In u us -> exists r, net (GET u) = Fulfilled r /\ ok r = true) ->
   fst (on_message net (Some (Message "CACHE_URLS" (Some us) cn)) st) = Fulfilled tt
   /\ forall u, In u us ->
        exists r, net (GET u) = Fulfilled r
                  /\ stored DYNAMIC_CACHE u
                       (caches (snd (on_message net
                                       (Some (Message "CACHE_URLS" (Some us) cn)) st)))
                     = Some r)
  /\ ((exists u, In u us /\ forall r, net (GET u) = Fulfilled r -> ok r = false) ->
      fst (on_message net (Some (Message "CACHE_URLS" (Some us) cn)) st)
      = Rejected addAll_failure
      /\ forall name u,
           stored name u
             (caches (snd (on_message net (Some (Message "CACHE_URLS" (Some us) cn)) st)))
           = stored name u (caches st)).
Proof.
  rewrite on_message_cache_urls. unfold cache_addAll.
  destruct (fetch_every net us) as [rs|] eqn:Hall; cbn [fst snd caches]; split.
  - intros _. split; [reflexivity |]. intros u Hu.
    apply (addAll_stores net DYNAMIC_CACHE us rs _ u Hall); [| exact Hu].
    apply bucket_after_open.
  - intros Hbad. apply fetch_every_None in Hbad. congruence.
  - intros Hgood. exfalso.
    destruct (proj1 (fetch_every_None net _) Hall) as [u [Hu Hbad]].
    destruct (Hgood u Hu) as [r [Hr Hok]]. specialize (Hbad r Hr). congruence.
  - intros _. split; [reflexivity |]. intros name u.
    now rewrite stored_after_open.
Qed.

Lemma bucket_after_delete name name' (cs : list (string * gmap string response)) :
  bucket name' (List.filter (fun p => negb (String.eqb (fst p) name)) cs)
  = if String.eqb name' name then None else bucket name' cs.
Proof.
  induction cs as [|[n b] cs IH]; simpl; [now destruct (String.eqb name' name) |].
  destruct (String.eqb_spec n name) as [-> | Hn]; simpl.
  - rewrite IH. rewrite (String.eqb_sym name name').
    now destruct (String.eqb name' name).
  - destruct (String.eqb_spec n name') as [-> | Hn'].
    + destruct (String.eqb_spec name' name); [contradiction | reflexivity].
    + exact IH.
Qed.

(** X11. A [DELETE_CACHE] message removes the bucket it names, be it a
    current one, and leaves every other bucket as it is; a message of
    another type than [CACHE_URLS] and [DELETE_CACHE], or without data,
    changes no bucket. *)
Theorem delete_cache_message_removes_only_that_bucket st :
  (forall name us,
     fst (on_message net (Some (Message "DELETE_CACHE" us (Some name))) st) = Fulfilled tt
     /\ bucket name
          (caches (snd (on_message net (Some (Message "DELETE_CACHE" us (Some name))) st)))
        = None
     /\ forall name', name' <> name ->
          bucket name'
            (caches (snd (on_message net (Some (Message "DELETE_CACHE" us (Some name))) st)))
          = bucket name' (caches st))
  /\ (forall d, type d <> "CACHE_URLS" -> type d <> "DELETE_CACHE" ->
        caches (snd (on_message net (Some d) st)) = caches st)
  /\ caches (snd (on_message net None st)) = caches st.
Proof.
  split; [| split].
  - intros name us. unfold on_message, bind, console_log, emit, ret, caches_delete.
    cbn. rewrite bucket_after_delete, String.eqb_refl.
    split; [reflexivity | split; [reflexivity |]].
    intros name' Hne. rewrite bucket_after_delete.
    destruct (String.eqb_spec name' name); [contradiction | reflexivity].
  - intros d Hc Hd. apply String.eqb_neq in Hc, Hd.
    unfold on_message, bind, console_log, emit, ret. cbn.
    rewrite Hc, Hd. now destruct (String.eqb (type d) "SKIP_WAITING").
  - reflexivity.
Qed.

End Messaging.

Lemma cache_urls_message_is_all_or_nothing_witness :
  fst (Worker.on_message Examples.online (Some MoreExamples.cache_urls) Sw.fresh)
  = Js.Fulfilled tt
  /\ fst (Worker.on_message Examples.offline (Some MoreExamples.cache_urls) Sw.fresh)
     = Js.Rejected Sw.addAll_failure.
Proof.
  split.
  - apply (proj1 (cache_urls_message_is_all_or_nothing Examples.online Sw.fresh
                    ["/api/list"; "/api/genres"] None)).
    intros u _. eexists. split; reflexivity.
  - apply (proj2 (cache_urls_message_is_all_or_nothing Examples.offline Sw.fresh
                    ["/api/list"; "/api/genres"] None)).
    exists "/api/list". split; [simpl; tauto | intros r Hr; discriminate].
Defined.

Lemma delete_cache_message_removes_only_that_bucket_witness :
  Sw.bucket Sw.DYNAMIC_CACHE
    (Sw.caches (snd (Worker.on_message Examples.offline (Some MoreExamples.delete_static)
                       Examples.revisited)))
  = Sw.bucket Sw.DYNAMIC_CACHE (Sw.caches Examples.revisited).
Proof.
  apply (proj1 (delete_cache_message_removes_only_that_bucket Examples.offline
                  Examples.revisited) Sw.STATIC_CACHE None).
  discriminate.
Defined.

(** ** More on classification and on cache sizes *)

Section ClassificationStability.
Import JsString Js Sw Worker.

(** X12. A Static classification survives anything put around the URL:
    a request whose URL contains the URL of a Static request, with a
    query string, a fragment or an origin added, is Static too. *)
Theorem static_classification_is_stable (rq rq' : request) :
  includes (url rq') (url rq) = true ->
  classify rq = Static ->
  classify rq' = Static.
Proof.
  intros Hin Hstatic. apply includes_iff in Hin.
  assert (Hs : isStaticFile rq = true).
  { unfold classify in Hstatic. destruct (isStaticFile rq); [reflexivity |].
    destruct (isImage rq); [discriminate |]. destruct (isDataFile rq); discriminate. }
  unfold isStaticFile in Hs. apply some_included_iff in Hs.
  destruct Hs as [ext [Hext Hsub]].
  assert (Hs' : isStaticFile rq' = true).
  { apply some_included_iff. exists ext. split; [exact Hext |].
    now apply (Substring_trans ext (url rq)). }
  unfold classify. now rewrite Hs'.
Qed.

Lemma size_fold_insert (c : gmap string response) u r :
  c !! u = None ->
  map_fold (fun _ r size => size + blob_size r) 0 (<[u := r]> c)
  = map_fold (fun _ r size => size + blob_size r) 0 c + blob_size r.
Proof.
  intros Hu.
  rewrite (map_fold_insert_L (fun _ r size => size + blob_size r) 0 u r c); [reflexivity | | exact Hu].
  intros j1 j2 z1 z2 y _ _ _. lia.
Qed.

Lemma getCacheSize_run name st :
  getCacheSize name st
  = (Fulfilled (match bucket name (caches (snd (caches_open name st))) with
                | Some c => map_fold (fun _ r size => size + blob_size r) 0 c
                | None => 0
                end),
     snd (caches_open name st)).
Proof. reflexivity. Qed.

(** X13. [getCacheSize] changes no stored entry, but it opens the bucket
    it measures: for a name that has no bucket it answers 0 and leaves
    an empty bucket of that name behind. Writing a response for a URL the
    bucket does not hold raises the size by the length of its body. *)
Theorem getCacheSize_opens_the_bucket name st :
  (forall name' u,
     stored name' u (caches (snd (getCacheSize name st))) = stored name' u (caches st))
  /\ (bucket name (caches st) = None ->
      fst (getCacheSize name st) = Fulfilled 0
      /\ bucket name (caches (snd (getCacheSize name st))) = Some ∅)
  /\ (forall c rq r size,
        bucket name (caches st) = Some c -> c !! url rq = None -> method rq = "GET" ->
        fst (getCacheSize name st) = Fulfilled size ->
        fst (getCacheSize name (snd (cache_put name rq r st)))
        = Fulfilled (size + blob_size r)).
Proof.
  split; [| split].
  - intros name' u. rewrite getCacheSize_run. cbn [snd]. apply stored_after_open.
  - intros Hnone. rewrite getCacheSize_run. cbn [fst snd].
    unfold caches_open. cbn [snd].
    assert (Hhas : has_cache name (caches st) = false) by now apply bucket_None_iff.
    rewrite Hhas. cbn [caches]. rewrite bucket_app, Hnone. simpl.
    rewrite String.eqb_refl. split; reflexivity.
  - intros c rq r size Hc Hu Hget. rewrite !getCacheSize_run. cbn [fst].
    assert (Hhas : has_cache name (caches st) = true).
    { destruct (has_cache name (caches st)) eqn:Hhas; [reflexivity |].
      apply bucket_None_iff in Hhas. congruence. }
    unfold caches_open at 1. cbn [snd]. rewrite Hhas, Hc. intros [= <-].
    unfold cache_put. rewrite Hget. change (String.eqb "GET" "GET") with true.
    cbn [snd]. unfold caches_open. cbn [snd caches].
    assert (Hhas' : has_cache name (update_cache name (fun b => <[url rq := r]> b) (caches st))
                    = true).
    { destruct (has_cache name (update_cache _ _ _)) eqn:Hafter; [reflexivity |].
      apply bucket_None_iff in Hafter. rewrite bucket_update_cache, Hc in Hafter.
      discriminate. }
    rewrite Hhas'. cbn [caches]. rewrite bucket_update_cache, Hc. cbn.
    f_equal. now apply size_fold_insert.
Qed.

End ClassificationStability.

Lemma static_classification_is_stable_witness :
  Sw.classify (Sw.GET "https://startanime.example/assets/css/main.css?v=2") = Sw.Static.
Proof.
  apply (static_classification_is_stable (Sw.GET "/assets/css/main.css")); reflexivity.
Defined.

Lemma getCacheSize_opens_the_bucket_witness :
  fst (Worker.getCacheSize "startanime-static-v0.9.0" Examples.installed) = Js.Fulfilled 0
  /\ Sw.bucket "startanime-static-v0.9.0"
       (Sw.caches (snd (Worker.getCacheSize "startanime-static-v0.9.0" Examples.installed)))
     = Some ∅.
Proof.
  apply (proj1 (proj2 (getCacheSize_opens_the_bucket "startanime-static-v0.9.0"
                         Examples.installed))).
  reflexivity.
Defined.

(** ** Loading components: failures, the memo, preloading *)

Section Loading.
Import Js Loader Components.
Context `{Dom}.
Implicit Types (net : string -> settled response) (name : string) (st : state).

(** The memo after a load: as before, or with the loaded name added
    where there was none. *)
Lemma loadComponent_memo net name st :
  componentCache (snd (loadComponent net name st)) = componentCache st
  \/ (componentCache st !! name = None
      /\ exists html,
           fst (loadComponent net name st) = Fulfilled html
           /\ componentCache (snd (loadComponent net name st))
              = <[name := html]> (componentCache st)).
Proof.
  unfold loadComponent, bind, try_catch, componentCache_get, fetch, componentCache_set,
    emit, ret, throw.
  destruct (componentCache st !! name) as [h|] eqn:Hc; [left; reflexivity |].
  cbn -[extractComponentContent String.append].
  destruct (net ("./components/" +:+ name +:+ "-template.html")) as [r|e];
    cbn -[extractComponentContent String.append]; [| left; reflexivity].
  destruct (ok r); cbn -[extractComponentContent String.append].
  - right. split; [reflexivity |]. eexists. split; reflexivity.
  - destruct (net ("./components/" +:+ name +:+ ".html")) as [r'|e'];
      cbn -[extractComponentContent String.append]; [| left; reflexivity].
    destruct (ok r'); cbn -[extractComponentContent String.append]; [| left; reflexivity].
    right. split; [reflexivity |]. eexists. split; reflexivity.
Qed.

(** A load that misses the memo starts by asking for the template file. *)
Lemma loadComponent_miss_fetches net name st :
  componentCache st !! name = None ->
  exists rest,
    fetched (events (snd (loadComponent net name st)))
    = fetched (events st) ++ ("./components/" +:+ name +:+ "-template.html") :: rest.
Proof.
  intros Hc.
  unfold loadComponent, bind, try_catch, componentCache_get, fetch, componentCache_set,
    emit, ret, throw.
  rewrite Hc. cbn -[extractComponentContent String.append].
  destruct (net ("./components/" +:+ name +:+ "-template.html")) as [r|e];
    cbn -[extractComponentContent String.append].
  - destruct (ok r); cbn -[extractComponentContent String.append].
    + rewrite !fetched_app. cbn -[String.append]. rewrite <- !app_assoc. now eexists.
    + destruct (net ("./components/" +:+ name +:+ ".html")) as [r'|e'];
        cbn -[extractComponentContent String.append];
        [destruct (ok r'); cbn -[extractComponentContent String.append] |];
        rewrite !fetched_app; cbn -[String.append]; rewrite <- !app_assoc; now eexists.
  - rewrite !fetched_app. cbn -[String.append]. rewrite <- !app_assoc. now eexists.
Qed.

(** X14. A load that fails writes nothing to the memo, so failures are
    not remembered: the next load of the same component asks the network
    for the template file again. *)
Theorem failed_load_is_not_memoized net net' name st e st' :
  loadComponent net name st = (Rejected e, st') ->
  componentCache st' = componentCache st
  /\ exists rest,
       fetched (events (snd (loadComponent net' name st')))
       = fetched (events st') ++ ("./components/" +:+ name +:+ "-template.html") :: rest.
Proof.
  intros Hfail.
  assert (Hmiss : componentCache st !! name = None).
  { destruct (componentCache st !! name) as [h|] eqn:Hc; [| reflexivity].
    rewrite (loadComponent_cached net name st h Hc) in Hfail. discriminate. }
  assert (Hsame : componentCache st' = componentCache st).
  { destruct (loadComponent_memo net name st) as [Heq | [_ [html [Hok _]]]].
    - now rewrite Hfail in Heq.
    - rewrite Hfail in Hok. discriminate. }
  split; [exact Hsame |].
  apply loadComponent_miss_fetches. now rewrite Hsame.
Qed.

Lemma first_load_succeeds_iff_served_helper net name st :
  componentCache st !! name = None ->
  (exists html, fst (loadComponent net name st) = Fulfilled html) <-> served net name = true.
Proof.
  intros Hc.
  unfold loadComponent, served, bind, try_catch, componentCache_get, fetch,
    componentCache_set, emit, ret, throw.
  rewrite Hc. cbn -[extractComponentContent String.append].
  destruct (net ("./components/" +:+ name +:+ "-template.html")) as [r|e];
    cbn -[extractComponentContent String.append].
  - destruct (ok r); cbn -[extractComponentContent String.append].
    + split; [reflexivity | intros _; now eexists].
    + destruct (net ("./components/" +:+ name +:+ ".html")) as [r'|e'];
        cbn -[extractComponentContent String.append].
      * destruct (ok r'); cbn -[extractComponentContent String.append].
        -- split; [reflexivity | intros _; now eexists].
        -- split; [intros [html Hhtml]; discriminate | discriminate].
      * split; [intros [html Hhtml]; discriminate | discriminate].
  - split; [intros [html Hhtml]; discriminate | discriminate].
Qed.

(** X15. A first load succeeds exactly when the component's files are
    served: the template file successfully, or the template file with an
    error status and the plain file successfully. A network error on the
    template file is not followed by a request for the plain file. *)
Theorem first_load_succeeds_iff_served net name st :
  componentCache st !! name = None ->
  ((exists html, fst (loadComponent net name st) = Fulfilled html) <-> served net name = true)
  /\ (forall e, net ("./components/" +:+ name +:+ "-template.html") = Rejected e ->
        fst (loadComponent net name st) = Rejected e
        /\ fetched (events (snd (loadComponent net name st)))
           = fetched (events st) ++ ["./components/" +:+ name +:+ "-template.html"]).
Proof.
  intros Hc. split; [now apply first_load_succeeds_iff_served_helper |].
  intros e He.
  unfold loadComponent, bind, try_catch, componentCache_get, fetch, emit, throw.
  rewrite Hc. cbn -[extractComponentContent String.append]. rewrite He.
  cbn -[String.append]. split; [reflexivity |].
  rewrite !fetched_app. cbn -[String.append]. now rewrite !app_nil_r.
Qed.

Lemma loadComponent_keeps_entries net name st other html :
  componentCache st !! other = Some html ->
  componentCache (snd (loadComponent net name st)) !! other = Some html.
Proof.
  intros Hother.
  destruct (loadComponent_memo net name st) as [-> | [Hmiss [h [_ ->]]]]; [exact Hother |].
  rewrite lookup_insert_ne; [exact Hother |]. intros ->. congruence.
Qed.

(** X16. What the memo holds for a name never changes: loading any
    component, successfully or not, leaves every entry already there as
    it is. *)
Theorem memo_entries_never_change net name st other html :
  componentCache st !! other = Some html ->
  componentCache (snd (loadComponent net name st)) !! other = Some html.
Proof.
  intros Hother.
  destruct (loadComponent_memo net name st) as [Hsame | [Hmiss [h [_ Hadded]]]].
  - now rewrite Hsame.
  - rewrite Hadded, lookup_insert_ne; [exact Hother |].
    intros Heq. subst other. congruence.
Qed.

End Loading.

Section Preloading.
Import Js Loader Components.
Context `{Dom}.
Variable net : string -> settled response.

(** One round of the preloading loop. *)
Lemma protected_load name st :
  exists st',
    try_catch (bind (loadComponent net name) (fun _ => ret tt)) (fun _ => ret tt) st
    = (Fulfilled tt, st')
    /\ (forall other html,
          componentCache st !! other = Some html -> componentCache st' !! other = Some html)
    /\ (served net name = true -> is_Some (componentCache st' !! name))
    /\ (forall other, is_Some (componentCache st' !! other) ->
          is_Some (componentCache st !! other) \/ (other = name /\ served net name = true)).
Proof.
  unfold try_catch, bind, ret.
  destruct (loadComponent net name st) as [[html|e] st'] eqn:Hload.
  - exists st'. split; [reflexivity |].
    pose proof (loadComponent_memo net name st) as Hmemo. rewrite Hload in Hmemo.
    cbn [fst snd] in Hmemo. split; [| split].
    + intros other h Hother.
      pose proof (loadComponent_keeps_entries net name st other h Hother) as Hkept.
      now rewrite Hload in Hkept.
    + intros _. destruct Hmemo as [Heq | [_ [h [_ ->]]]].
      * destruct (componentCache st !! name) as [h|] eqn:Hc.
        -- rewrite Heq, Hc. now eexists.
        -- exfalso.
           destruct (loadComponent_miss net name st html st' Hc Hload) as [Hins _].
           rewrite Hins in Heq.
           assert (Hl : <[name := html]> (componentCache st) !! name = Some html)
             by apply lookup_insert_eq.
           rewrite Heq, Hc in Hl. discriminate.
      * rewrite lookup_insert_eq. now eexists.
    + intros other Hsome. destruct Hmemo as [Heq | [Hmiss [h [_ Hins]]]].
      * left. now rewrite <- Heq.
      * rewrite Hins in Hsome. destruct (decide (name = other)) as [<- | Hne].
        -- right. split; [reflexivity |].
           apply (proj1 (first_load_succeeds_iff_served_helper net name st Hmiss)).
           exists html. now rewrite Hload.
        -- left. now rewrite lookup_insert_ne in Hsome.
  - exists st'. split; [reflexivity |].
    pose proof (loadComponent_memo net name st) as Hmemo. rewrite Hload in Hmemo.
    cbn [fst snd] in Hmemo.
    assert (Heq : componentCache st' = componentCache st).
    { destruct Hmemo as [Heq | [_ [h [Hok _]]]]; [exact Heq | discriminate]. }
    assert (Hmiss : componentCache st !! name = None).
    { destruct (componentCache st !! name) as [h|] eqn:Hc; [| reflexivity].
      rewrite (loadComponent_cached net name st h Hc) in Hload. discriminate. }
    rewrite Heq. split; [tauto | split; [| tauto]].
    intros Hserved. exfalso.
    apply (proj2 (first_load_succeeds_iff_served_helper net name st Hmiss)) in Hserved.
    destruct Hserved as [html Hhtml]. rewrite Hload in Hhtml. discriminate.
Qed.

Lemma protected_loads names st :
  exists st',
    for_each
      (fun componentName =>
         try_catch (bind (loadComponent net componentName) (fun _ => ret tt))
           (fun _ => ret tt))
      names st
    = (Fulfilled tt, st')
    /\ (forall other html,
          componentCache st !! other = Some html -> componentCache st' !! other = Some html)
    /\ (forall name, In name names -> served net name = true ->
          is_Some (componentCache st' !! name))
    /\ (forall other, is_Some (componentCache st' !! other) ->
          is_Some (componentCache st !! other)
          \/ (In other names /\ served net other = true)).
Proof.
  revert st. induction names as [|name names IH]; intros st.
  - exists st. split; [reflexivity |]. split; [tauto | split; [intros ? [] | tauto]].
  - cbn [for_each]. unfold bind at 1.
    destruct (protected_load name st) as [st1 [Hrun [Hkeep1 [Hin1 Hout1]]]]. rewrite Hrun.
    destruct (IH st1) as [st2 [Hrest [Hkeep2 [Hin2 Hout2]]]]. rewrite Hrest.
    exists st2. split; [reflexivity | split; [| split]].
    + intros other html Hother. now apply Hkeep2, Hkeep1.
    + intros n [<- | Hn] Hserved.
      * destruct (Hin1 Hserved) as [h Hh]. exists h. now apply Hkeep2.
      * now apply Hin2.
    + intros other Hsome. destruct (Hout2 other Hsome) as [Hbefore | [Hin Hserved]].
      * destruct (Hout1 other Hbefore) as [Hst | [-> Hserved]];
          [now left | right; split; [now left | exact Hserved]].
      * right. split; [now right | exact Hserved].
Qed.

(** X17. Preloading never fails. Afterwards the memo holds what it held
    before, unchanged, and in addition exactly those of the four common
    components whose files are served; a later load of one of these is
    answered from the memo, whatever the network does then. *)
Theorem preloadComponents_memoizes_what_is_served st :
  fst (preloadComponents net st) = Fulfilled tt
  /\ (forall other html,
        componentCache st !! other = Some html ->
        componentCache (snd (preloadComponents net st)) !! other = Some html)
  /\ (forall name, In name commonComponents -> served net name = true ->
        exists html,
          componentCache (snd (preloadComponents net st)) !! name = Some html
          /\ forall net',
               loadComponent net' name (snd (preloadComponents net st))
               = (Fulfilled html, snd (preloadComponents net st)))
  /\ (forall other, is_Some (componentCache (snd (preloadComponents net st)) !! other) ->
        is_Some (componentCache st !! other)
        \/ (In other commonComponents /\ served net other = true)).
Proof.
  unfold preloadComponents.
  destruct (protected_loads commonComponents st) as [st' [Hrun [Hkeep [Hin Hout]]]].
  unfold bind in Hrun. unfold bind. rewrite Hrun. cbn [fst snd].
  split; [reflexivity | split; [exact Hkeep | split; [| exact Hout]]].
  intros name Hname Hserved. destruct (Hin name Hname Hserved) as [html Hhtml].
  exists html. split; [exact Hhtml |]. intros net'. now apply loadComponent_cached.
Qed.

(** X18. [clearCache] forgets every component: whatever was loaded
    before, the next load of any component asks the network for its
    template file. *)
Theorem clearCache_forgets_everything st name :
  componentCache (snd (clearCache st)) !! name = None
  /\ exists rest,
       fetched (events (snd (loadComponent net name (snd (clearCache st)))))
       = fetched (events st) ++ ("./components/" +:+ name +:+ "-template.html") :: rest.
Proof.
  assert (Hnone : componentCache (snd (clearCache st)) !! name = None)
    by apply lookup_empty.
  split; [exact Hnone |].
  destruct (loadComponent_miss_fetches net name (snd (clearCache st)) Hnone) as [rest Hrest].
  exists rest. rewrite Hrest. cbn [clearCache snd events].
  rewrite fetched_app. cbn. now rewrite app_nil_r.
Qed.

End Preloading.

Lemma failed_load_is_not_memoized_witness :
  Loader.componentCache
    (snd (Loader.loadComponent (H := Examples.no_dom) MoreExamples.unreachable "header"
            Loader.fresh))
  = Loader.componentCache Loader.fresh.
Proof.
  apply (proj1 (failed_load_is_not_memoized (H := Examples.no_dom) MoreExamples.unreachable
                  MoreExamples.unreachable "header" Loader.fresh
                  (Js.TypeError "Failed to fetch") _ eq_refl)).
Defined.

Lemma first_load_succeeds_iff_served_witness :
  Components.served MoreExamples.partial_server "footer" = true
  /\ fst (Loader.loadComponent (H := Examples.no_dom) MoreExamples.unreachable "footer"
            Loader.fresh)
     = Js.Rejected (Js.TypeError "Failed to fetch").
Proof.
  split.
  - apply (proj1 (first_load_succeeds_iff_served (H := Examples.no_dom)
                    MoreExamples.partial_server "footer" Loader.fresh eq_refl)).
    eexists. reflexivity.
  - apply (proj2 (first_load_succeeds_iff_served (H := Examples.no_dom)
                    MoreExamples.unreachable "footer" Loader.fresh eq_refl)
             (Js.TypeError "Failed to fetch")).
    reflexivity.
Defined.

Lemma memo_entries_never_change_witness :
  Loader.componentCache
    (snd (Loader.loadComponent (H := Examples.no_dom) MoreExamples.partial_server "footer"
            (snd (Loader.loadComponent (H := Examples.no_dom) MoreExamples.partial_server
                    "header" Loader.fresh))))
  !! "header"
  = Some Examples.header_template.
Proof.
  apply (memo_entries_never_change (H := Examples.no_dom)). reflexivity.
Defined.

Lemma preloadComponents_memoizes_what_is_served_witness :
  exists html,
    Loader.componentCache
      (snd (Components.preloadComponents (H := Examples.no_dom) MoreExamples.partial_server
              Loader.fresh))
    !! "footer" = Some html
    /\ forall net',
         Loader.loadComponent (H := Examples.no_dom) net' "footer"
           (snd (Components.preloadComponents (H := Examples.no_dom)
                   MoreExamples.partial_server Loader.fresh))
         = (Js.Fulfilled html,
            snd (Components.preloadComponents (H := Examples.no_dom)
                   MoreExamples.partial_server Loader.fresh)).
Proof.
  apply (proj1 (proj2 (proj2
           (preloadComponents_memoizes_what_is_served (H := Examples.no_dom)
              MoreExamples.partial_server Loader.fresh)))).
  - simpl. tauto.
  - reflexivity.
Defined.

(** ** Templates: text without placeholders, and processing twice *)

Section TemplateEdges.
Import Js Loader Spec RegExp.
Variable JSON_parse : string -> settled Json.value.
Implicit Types (ps : list piece) (template ds : string).

Lemma replace_without_opening k v template :
  no_opening template = true ->
  replace template (placeholder_pattern k) v = template.
Proof.
  intros Ht. unfold replace.
  rewrite <- (append_nil_r template) at 1.
  rewrite replace_from_text by exact Ht.
  cbn. now rewrite append_nil_r.
Qed.

Lemma fold_substitute_none entries : fold_left substitute entries None = None.
Proof. induction entries as [|kv entries IH]; [reflexivity | exact IH]. Qed.

Lemma fold_substitute_without_opening entries template :
  no_opening template = true ->
  fold_left substitute entries (Some template)
  = if forallb (fun kv => bool_decide (is_Some (placeholder (fst kv)))) entries
    then Some template else None.
Proof.
  intros Ht. induction entries as [|[k x] entries IH]; [reflexivity |].
  cbn [fold_left forallb fst]. unfold substitute at 2. cbn [fst snd].
  assert (Hk : placeholder k = Some (placeholder_pattern k) \/ placeholder k = None).
  { unfold placeholder. destruct (all_chars _ k); [now left | now right]. }
  destruct Hk as [-> | ->].
  - rewrite (replace_without_opening k _ template Ht), IH.
    rewrite bool_decide_eq_true_2 by (now eexists). reflexivity.
  - rewrite fold_substitute_none.
    rewrite bool_decide_eq_false_2; [reflexivity |]. intros [p Hp]. discriminate.
Qed.

Lemma digits_syntax_free (d : Decimal.uint) :
  Components.syntax_free (DecimalString.NilZero.string_of_uint d) = true.
Proof.
  assert (Hd : Components.syntax_free (DecimalString.NilEmpty.string_of_uint d) = true).
  { unfold Components.syntax_free. induction d; cbn; try reflexivity; exact IHd. }
  destruct d; exact Hd.
Qed.

Lemma indexed_syntax_free {A} (i : nat) (xs : list A) :
  Forall (fun kv => Components.syntax_free (fst kv) = true) (indexed i xs).
Proof.
  revert i. induction xs as [|x xs IH]; intros i; cbn [indexed]; constructor.
  - apply digits_syntax_free.
  - apply IH.
Qed.

(** The keys a data value gives: those of an object are its own, those
    of a string or an array are indices, and nothing else has keys. *)
Lemma own_entries_syntax_free data entries :
  (forall members, data = Json.Object members ->
     Forall (fun kv => Components.syntax_free (fst kv) = true) members) ->
  own_entries data = Fulfilled entries ->
  Forall (fun kv => Components.syntax_free (fst kv) = true) entries.
Proof.
  intros Hobject. destruct data as [| b | text | str | items | members]; cbn [own_entries];
    intros [= <-]; try constructor; try apply indexed_syntax_free.
  now apply Hobject.
Qed.

Lemma fold_substitute_syntax_free entries template :
  no_opening template = true ->
  Forall (fun kv => Components.syntax_free (fst kv) = true) entries ->
  fold_left substitute entries (Some template) = Some template.
Proof.
  intros Ht Hkeys. rewrite (fold_substitute_without_opening entries template Ht).
  replace (forallb _ entries) with true; [reflexivity |].
  symmetry. apply forallb_forall. intros kv Hkv.
  apply bool_decide_eq_true_2. rewrite List.Forall_forall in Hkeys.
  specialize (Hkeys kv Hkv). unfold Components.syntax_free in Hkeys.
  unfold placeholder. rewrite Hkeys. now eexists.
Qed.

(** X19. A template in which no placeholder can start (no two opening
    braces in a row, no opening brace at the end) comes back as it is
    for every data string whose object keys contain no character with a
    meaning in a regular expression: no data, malformed JSON, [null],
    booleans, numbers, strings, arrays, and objects with such keys,
    whatever their values, [$] included. *)
Theorem template_without_placeholders_is_unchanged template dataString :
  no_opening template = true ->
  (forall ds members,
     dataString = Some ds ->
     JSON_parse ds = Fulfilled (Json.Object members) ->
     Forall (fun kv => Components.syntax_free (fst kv) = true) members) ->
  processComponentTemplate JSON_parse template dataString = Some template.
Proof.
  intros Ht Hkeys. unfold processComponentTemplate.
  destruct dataString as [[|c ds]|]; try reflexivity.
  destruct (JSON_parse (String c ds)) as [data|e] eqn:Hparse; [| reflexivity].
  destruct (own_entries data) as [entries|e] eqn:Hentries; [| reflexivity].
  apply fold_substitute_syntax_free; [exact Ht |].
  apply (own_entries_syntax_free data entries); [| exact Hentries].
  intros members ->. now apply (Hkeys (String c ds) members).
Qed.

Lemma fill_render_pieces data ps : fill data ps = render (Components.fill_pieces data ps).
Proof.
  induction ps as [|[s | l key r] ps IH]; simpl; [reflexivity | now rewrite IH |].
  destruct (value_of key data); simpl; now rewrite IH.
Qed.

Lemma value_of_plain key data v :
  forallb plain_member data = true -> value_of key data = Some v -> plain_value v = true.
Proof.
  induction data as [|[k x] data IH]; simpl; [discriminate |].
  unfold plain_member at 1. cbn [fst snd]. rewrite !andb_true_iff. intros [[_ Hx] Hdata].
  destruct (String.eqb k key); [intros [= <-]; exact Hx | now apply IH].
Qed.

Lemma fill_pieces_well_formed data ps :
  forallb plain_member data = true -> forallb well_formed ps = true ->
  forallb well_formed (Components.fill_pieces data ps) = true.
Proof.
  intros Hdata. induction ps as [|[s | l key r] ps IH]; simpl; [reflexivity | |].
  - rewrite !andb_true_iff. intros [Hs Hps]. split; [exact Hs | now apply IH].
  - rewrite !andb_true_iff. intros [Hhole Hps].
    destruct (value_of key data) as [v|] eqn:Hv; simpl; rewrite ?andb_true_iff.
    + split; [| now apply IH].
      apply (value_of_plain key data v Hdata) in Hv.
      now apply plain_value_facts in Hv.
    + split; [tauto | now apply IH].
Qed.

Lemma value_of_app key data1 data2 :
  value_of key (data1 ++ data2)
  = match value_of key data1 with
    | Some v => Some v
    | None => value_of key data2
    end.
Proof.
  induction data1 as [|[k x] data1 IH]; simpl; [reflexivity |].
  now destruct (String.eqb k key).
Qed.

Lemma fill_after_pieces data1 data2 ps :
  fill data2 (Components.fill_pieces data1 ps) = fill (data1 ++ data2) ps.
Proof.
  induction ps as [|[s | l key r] ps IH]; simpl; [reflexivity | now rewrite IH |].
  rewrite value_of_app. destruct (value_of key data1) as [v|]; simpl; now rewrite IH.
Qed.

Lemma fill_twice data ps : fill (data ++ data) ps = fill data ps.
Proof.
  induction ps as [|[s | l key r] ps IH]; simpl; [reflexivity | now rewrite IH |].
  rewrite value_of_app. destruct (value_of key data) as [v|] eqn:Hv; now rewrite IH.
Qed.

Lemma process_filled ps ds members data :
  ds <> "" ->
  JSON_parse ds = Fulfilled (Json.Object members) ->
  forallb well_formed ps = true ->
  forallb plain_member data = true ->
  forallb plain_member members = true ->
  processComponentTemplate JSON_parse (fill data ps) (Some ds)
  = Some (fill (data ++ members) ps).
Proof.
  intros Hds Hparse Hps Hdata Hmembers.
  rewrite fill_render_pieces. unfold processComponentTemplate.
  destruct ds; [contradiction |]. rewrite Hparse. cbn [own_entries].
  rewrite fold_substitute by (try assumption; now apply fill_pieces_well_formed).
  now rewrite fill_after_pieces.
Qed.

(** X20. Processing in two steps is processing once with both data
    objects: after the holes of a first object are filled, a second
    object fills the holes that are left, so that the result is the one
    of the members of the first followed by those of the second, the
    first winning for a key in both. *)
Theorem processing_twice_composes ps ds1 ds2 members1 members2 :
  ds1 <> "" -> ds2 <> "" ->
  JSON_parse ds1 = Fulfilled (Json.Object members1) ->
  JSON_parse ds2 = Fulfilled (Json.Object members2) ->
  forallb well_formed ps = true ->
  forallb plain_member members1 = true ->
  forallb plain_member members2 = true ->
  exists once,
    processComponentTemplate JSON_parse (render ps) (Some ds1) = Some once
    /\ processComponentTemplate JSON_parse once (Some ds2)
       = Some (fill (members1 ++ members2) ps).
Proof.
  intros Hds1 Hds2 Hparse1 Hparse2 Hps Hm1 Hm2. exists (fill members1 ps). split.
  - unfold processComponentTemplate. destruct ds1; [contradiction |].
    rewrite Hparse1. cbn [own_entries]. now apply fold_substitute.
  - now apply process_filled.
Qed.

(** X21. Processing is idempotent on well-formed input: a processed
    template processed again with the same data is unchanged. *)
Theorem processComponentTemplate_is_idempotent ps ds members :
  ds <> "" ->
  JSON_parse ds = Fulfilled (Json.Object members) ->
  forallb well_formed ps = true ->
  forallb plain_member members = true ->
  exists once,
    processComponentTemplate JSON_parse (render ps) (Some ds) = Some once
    /\ processComponentTemplate JSON_parse once (Some ds) = Some once.
Proof.
  intros Hds Hparse Hps Hm. exists (fill members ps). split.
  - unfold processComponentTemplate. destruct ds; [contradiction |].
    rewrite Hparse. cbn [own_entries]. now apply fold_substitute.
  - rewrite (process_filled ps ds members members) by assumption.
    now rewrite fill_twice.
Qed.

End TemplateEdges.

Lemma template_without_placeholders_is_unchanged_witness :
  Loader.processComponentTemplate Examples.parse "<p>{ no holes }</p>"
    (Some (Json.stringify Examples.echo))
  = Some "<p>{ no holes }</p>".
Proof.
  apply (template_without_placeholders_is_unchanged Examples.parse
           "<p>{ no holes }</p>" (Some (Json.stringify Examples.echo)) eq_refl).
  intros ds members [= <-] [= <-]. repeat constructor.
Defined.

Lemma processing_twice_composes_witness :
  exists once,
    Loader.processComponentTemplate MoreExamples.parse
      (Spec.render MoreExamples.name_and_year) (Some (Json.stringify Examples.naruto))
    = Some once
    /\ Loader.processComponentTemplate MoreExamples.parse once
         (Some (Json.stringify MoreExamples.year))
       = Some "<p>Naruto (2002)</p>".
Proof.
  apply (processing_twice_composes MoreExamples.parse MoreExamples.name_and_year
           (Json.stringify Examples.naruto) (Json.stringify MoreExamples.year)
           [("name", Json.Str "Naruto")] [("year", Json.Number "2002")]);
    first [discriminate | reflexivity].
Defined.

Lemma processComponentTemplate_is_idempotent_witness :
  exists once,
    Loader.processComponentTemplate MoreExamples.parse
      (Spec.render MoreExamples.name_and_year) (Some (Json.stringify Examples.naruto))
    = Some once
    /\ Loader.processComponentTemplate MoreExamples.parse once
         (Some (Json.stringify Examples.naruto))
       = Some once.
Proof.
  apply (processComponentTemplate_is_idempotent MoreExamples.parse
           MoreExamples.name_and_year (Json.stringify Examples.naruto)
           [("name", Json.Str "Naruto")]);
    first [discriminate | reflexivity].
Defined.

(** ** What [extractComponentContent] stores *)

Section Trimming.
Import Loader RegExp.
Implicit Types (s t l r : string) (c : ascii).

Lemma trimStart_split s :
  exists l, s = l +:+ trimStart s /\ all_chars is_space l = true.
Proof.
  induction s as [|c s [l [Hs Hl]]]; [now exists "" |].
  cbn [trimStart]. destruct (is_space c) eqn:Hc.
  - exists (String c l). cbn [String.append all_chars]. rewrite Hc, Hl. now rewrite <- Hs.
  - now exists "".
Qed.

Lemma trimEnd_split s :
  exists r, s = trimEnd s +:+ r /\ all_chars is_space r = true.
Proof.
  induction s as [|c s [r [Hs Hr]]]; [now exists "" |].
  cbn [trimEnd]. destruct (trimEnd s) as [|d t].
  - cbn [String.append] in Hs. subst s. destruct (is_space c) eqn:Hc.
    + exists (String c r). cbn [String.append all_chars]. now rewrite Hc, Hr.
    + now exists r.
  - exists r. cbn [String.append] in *. now rewrite <- Hs.
Qed.

Lemma trimEnd_idempotent s : trimEnd (trimEnd s) = trimEnd s.
Proof.
  induction s as [|c s IH]; [reflexivity |].
  cbn [trimEnd]. destruct (trimEnd s) as [|d t] eqn:Ht.
  - destruct (is_space c) eqn:Hc; [reflexivity |]. cbn [trimEnd]. now rewrite Hc.
  - cbn [trimEnd] in *. now rewrite IH.
Qed.

(** A string that does not start with white space. *)
Lemma trimStart_clean s :
  match trimStart s with
  | String c _ => is_space c = false
  | EmptyString => True
  end.
Proof.
  induction s as [|c s IH]; [exact I |].
  cbn [trimStart]. destruct (is_space c) eqn:Hc; [exact IH | exact Hc].
Qed.

Lemma trimEnd_clean s :
  match s with String c _ => is_space c = false | EmptyString => True end ->
  trimStart (trimEnd s) = trimEnd s.
Proof.
  destruct s as [|c s]; [reflexivity |]. intros Hc.
  cbn [trimEnd]. destruct (trimEnd s); rewrite ?Hc; cbn [trimStart]; now rewrite Hc.
Qed.

Lemma trim_idempotent s : trim (trim s) = trim s.
Proof.
  unfold trim. rewrite (trimEnd_clean (trimStart s) (trimStart_clean s)).
  apply trimEnd_idempotent.
Qed.

Lemma trim_split s :
  exists l r,
    s = l +:+ trim s +:+ r /\ all_chars is_space l = true /\ all_chars is_space r = true.
Proof.
  destruct (trimStart_split s) as [l [Hs Hl]].
  destruct (trimEnd_split (trimStart s)) as [r [Ht Hr]].
  exists l, r. unfold trim. now rewrite <- Ht.
Qed.

End Trimming.

Section Extraction.
Import JsString Js Loader Components.
Context `{Dom}.
Implicit Types (net : string -> settled response) (name html : string) (st : state).

(** X22. A file with the two template markers is stored without its
    surrounding white space and nothing else is taken off: the component
    name plays no role, the file is the stored text between two runs of
    white space, and the stored text has no white space left to trim. *)
Theorem template_file_is_stored_trimmed html name :
  includes html "<!--" = true ->
  includes html "Component Template -->" = true ->
  extractComponentContent html name = trim html
  /\ (exists l r,
        html = l +:+ extractComponentContent html name +:+ r
        /\ RegExp.all_chars RegExp.is_space l = true
        /\ RegExp.all_chars RegExp.is_space r = true)
  /\ trim (extractComponentContent html name) = extractComponentContent html name.
Proof.
  intros Hopen Hclose.
  assert (Hextract : extractComponentContent html name = trim html).
  { unfold extractComponentContent. now rewrite Hopen, Hclose. }
  rewrite Hextract. split; [reflexivity | split; [apply trim_split | apply trim_idempotent]].
Qed.

Lemma loadComponent_from_template net name st r :
  componentCache st !! name = None ->
  net ("./components/" +:+ name +:+ "-template.html") = Fulfilled r ->
  ok r = true ->
  loadComponent net name st
  = (Fulfilled (extractComponentContent (body r) name),
     State (<[name := extractComponentContent (body r) name]> (componentCache st))
       (events st
        ++ [NetFetch ("./components/" +:+ name +:+ "-template.html");
            CacheSet name (extractComponentContent (body r) name);
            ConsoleLog ("ComponentLoader: Loaded component " +:+ in_quotes name)])).
Proof.
  intros Hc Hnet Hok.
  unfold loadComponent, bind, try_catch, componentCache_get, fetch, componentCache_set,
    emit, ret, throw.
  rewrite Hc. cbn -[extractComponentContent String.append in_quotes].
  rewrite Hnet. cbn -[extractComponentContent String.append in_quotes].
  rewrite Hok. cbn -[extractComponentContent String.append in_quotes].
  rewrite <- !app_assoc. reflexivity.
Qed.

(** X23. A card file without the template markers and without its card
    element is no failure: the load succeeds with the empty string,
    which is memoized, so that every later load of the card gives the
    empty string without asking the network again. *)
Theorem card_without_its_element_loads_empty net name st r :
  name = "anime-card" \/ name = "genre-card" ->
  componentCache st !! name = None ->
  net ("./components/" +:+ name +:+ "-template.html") = Fulfilled r ->
  ok r = true ->
  includes (body r) "<!--" && includes (body r) "Component Template -->" = false ->
  querySelector (parseFromString (body r)) ("." +:+ name) = None ->
  fst (loadComponent net name st) = Fulfilled ""
  /\ componentCache (snd (loadComponent net name st)) !! name = Some ""
  /\ forall net',
       loadComponent net' name (snd (loadComponent net name st))
       = (Fulfilled "", snd (loadComponent net name st)).
Proof.
  intros Hname Hc Hnet Hok Hmark Hquery.
  assert (Hextract : extractComponentContent (body r) name = "").
  { unfold extractComponentContent. rewrite Hmark.
    destruct Hname as [-> | ->]; cbn [String.append] in Hquery; cbn -[includes];
      now rewrite Hquery. }
  rewrite (loadComponent_from_template net name st r Hc Hnet Hok), Hextract.
  cbn [fst snd].
  assert (Hmemo : componentCache
                    (State (<[name := ""]> (componentCache st))
                       (events st
                        ++ [NetFetch ("./components/" +:+ name +:+ "-template.html");
                            CacheSet name "";
                            ConsoleLog ("ComponentLoader: Loaded component "
                                        +:+ in_quotes name)]))
                  !! name = Some "").
  { cbn [componentCache]. apply lookup_insert_eq. }
  split; [reflexivity | split; [exact Hmemo |]].
  intros net'. now apply loadComponent_cached.
Qed.

End Extraction.

(** ** Injection into the page *)

Section Injection.
Import Js Loader Components Spec.
Context `{Dom}.
Variable net : string -> settled response.
Variable JSON_parse : string -> settled Json.value.
Implicit Types (name : string) (target : option string) (data : option argument) (pg : page).

(** The run of [injectComponent], case by case. *)
Lemma injectComponent_run name target data pg :
  injectComponent net JSON_parse name target data pg
  = match loadComponent net name (loader pg) with
    | (Fulfilled html, st) =>
        match stringified data, target with
        | Fulfilled dataString, Some el =>
            (Fulfilled true,
             Page st
               (document_log pg
                ++ [SetInnerHTML el (processComponentTemplate JSON_parse html dataString);
                    AddClass el "component-loaded";
                    DispatchEvent "componentInjected" name el]))
        | Fulfilled dataString, None =>
            (Fulfilled false,
             Page (State (componentCache st)
                     (events st
                      ++ [ConsoleError ("ComponentLoader: Failed to inject component "
                                        +:+ in_quotes name +:+ ":")
                            (TypeError "Cannot set properties of null (setting 'innerHTML')")]))
               (document_log pg))
        | Rejected e, _ =>
            (Fulfilled false,
             Page (State (componentCache st)
                     (events st
                      ++ [ConsoleError ("ComponentLoader: Failed to inject component "
                                        +:+ in_quotes name +:+ ":") e]))
               (document_log pg))
        end
    | (Rejected e, st) =>
        (Fulfilled false,
         Page (State (componentCache st)
                 (events st
                  ++ [ConsoleError ("ComponentLoader: Failed to inject component "
                                    +:+ in_quotes name +:+ ":") e]))
           (document_log pg))
    end.
Proof.
  unfold injectComponent, try_catch, bind, on_loader, settle, dom, emit, ret, throw.
  destruct (loadComponent net name (loader pg)) as [[html|e] st];
    cbn -[processComponentTemplate String.append in_quotes stringified]; [| reflexivity].
  destruct (stringified data) as [dataString|e];
    cbn -[processComponentTemplate String.append in_quotes]; [| reflexivity].
  destruct target as [el|];
    cbn -[processComponentTemplate String.append in_quotes];
    rewrite <- ?app_assoc; reflexivity.
Qed.

Lemma loadComponent_result_is_memoized name st html :
  fst (loadComponent net name st) = Fulfilled html ->
  componentCache (snd (loadComponent net name st)) !! name = Some html.
Proof.
  intros Hload. destruct (componentCache st !! name) as [h|] eqn:Hc.
  - rewrite (loadComponent_cached net name st h Hc) in *. cbn [fst snd] in *.
    congruence.
  - destruct (loadComponent net name st) as [result st'] eqn:Hrun.
    cbn [fst snd] in *. subst result.
    destruct (loadComponent_miss net name st html st' Hc Hrun) as [Hmemo _].
    rewrite Hmemo. apply lookup_insert_eq.
Qed.

Lemma stringify_object_not_empty members : Json.stringify (Json.Object members) <> "".
Proof. discriminate. Qed.

Lemma process_object template ds members :
  ds <> "" ->
  JSON_parse ds = Fulfilled (Json.Object members) ->
  processComponentTemplate JSON_parse template (Some ds)
  = fold_left substitute members (Some template).
Proof.
  intros Hds Hparse. unfold processComponentTemplate.
  destruct ds; [contradiction |]. now rewrite Hparse.
Qed.

(** X24. [injectComponent] never rejects. It answers [true] exactly
    when the load gives markup, the data can be turned into JSON text
    and there is a target; in every other case it answers [false] and
    the document is left as it was. On [true] the target receives the
    markup processed with the JSON text of the data (the markup as it is
    for no data, falsy data and data without JSON text), then the class
    [component-loaded], then the event [componentInjected] is
    dispatched, in this order and nothing else. For a well-formed
    template and a data object with plain members that parses back to
    itself, the markup written is the template with the holes of the
    data's keys filled. Whenever the load gave markup, the component is
    in the memo afterwards, also when the answer is [false]. *)
Theorem injectComponent_reports_instead_of_rejecting name target data pg :
  (exists b, fst (injectComponent net JSON_parse name target data pg) = Fulfilled b)
  /\ (fst (injectComponent net JSON_parse name target data pg) = Fulfilled true
      <-> (exists html, fst (loadComponent net name (loader pg)) = Fulfilled html)
          /\ (forall e, data <> Some (Unserialisable e))
          /\ target <> None)
  /\ (fst (injectComponent net JSON_parse name target data pg) = Fulfilled false ->
      document_log (snd (injectComponent net JSON_parse name target data pg))
      = document_log pg)
  /\ (forall html dataString el,
        fst (loadComponent net name (loader pg)) = Fulfilled html ->
        stringified data = Fulfilled dataString ->
        target = Some el ->
        document_log (snd (injectComponent net JSON_parse name target data pg))
        = document_log pg
          ++ [SetInnerHTML el (processComponentTemplate JSON_parse html dataString);
              AddClass el "component-loaded";
              DispatchEvent "componentInjected" name el])
  /\ (forall html el,
        fst (loadComponent net name (loader pg)) = Fulfilled html ->
        stringified data = Fulfilled None ->
        target = Some el ->
        document_log (snd (injectComponent net JSON_parse name target data pg))
        = document_log pg
          ++ [SetInnerHTML el (Some html);
              AddClass el "component-loaded";
              DispatchEvent "componentInjected" name el])
  /\ (forall ps members el,
        fst (loadComponent net name (loader pg)) = Fulfilled (render ps) ->
        data = Some (Value (Json.Object members)) ->
        JSON_parse (Json.stringify (Json.Object members))
        = Fulfilled (Json.Object members) ->
        forallb well_formed ps = true ->
        forallb plain_member members = true ->
        target = Some el ->
        document_log (snd (injectComponent net JSON_parse name target data pg))
        = document_log pg
          ++ [SetInnerHTML el (Some (fill members ps));
              AddClass el "component-loaded";
              DispatchEvent "componentInjected" name el])
  /\ (forall html,
        fst (loadComponent net name (loader pg)) = Fulfilled html ->
        componentCache
          (loader (snd (injectComponent net JSON_parse name target data pg)))
        !! name = Some html).
Proof.
  rewrite injectComponent_run.
  pose proof (loadComponent_result_is_memoized name (loader pg)) as Hmemo.
  destruct (loadComponent net name (loader pg)) as [[h|e] st]; cbn [fst snd] in *.
  - assert (Hdata : (exists ds, stringified data = Fulfilled ds)
                    <-> forall e, data <> Some (Unserialisable e)).
    { destruct data as [[v| |e]|]; cbn [stringified];
        (split; [intros [ds Hds] e'; congruence | intros Hne]);
        try (eexists; reflexivity).
      now destruct (Hne e). }
    destruct (stringified data) as [ds|e] eqn:Hs.
    + destruct target as [el|]; cbn [fst snd].
      * split; [now eexists |].
        split.
        { split; [intros _ | reflexivity].
          split; [now eexists |]. split; [| discriminate].
          apply Hdata. now eexists. }
        split; [discriminate |].
        split; [intros html ds' el' [= <-] [= <-] [= <-]; reflexivity |].
        split; [intros html el' [= <-] [= ->] [= <-]; reflexivity |].
        split.
        { intros ps members el' [= ->] -> Hparse Hps Hm [= <-].
          assert (Hds : ds = Some (Json.stringify (Json.Object members))).
          { cbv [stringified truthy] in Hs. congruence. }
          rewrite Hds.
          rewrite (process_object _ _ _ (stringify_object_not_empty members) Hparse).
          now rewrite fold_substitute. }
        intros html [= <-]. cbn [loader]. now apply Hmemo.
      * split; [now eexists |].
        split; [split; [discriminate | intros [_ [_ Hne]]; now destruct Hne] |].
        split; [reflexivity |].
        split; [intros html ds' el' _ _ [=] |].
        split; [intros html el' _ _ [=] |].
        split; [intros ps members el' _ _ _ _ _ [=] |].
        intros html [= <-]. cbn [loader componentCache]. now apply Hmemo.
    + split; [now eexists |].
      split.
      { split; [discriminate |]. intros [_ [Hne _]].
        apply Hdata in Hne. destruct Hne as [ds Hds]. discriminate. }
      split; [reflexivity |].
      split; [intros html ds' el' _ [=] |].
      split; [intros html el' _ [=] |].
      split.
      { intros ps members el' _ -> _ _ _ _. cbn [stringified] in Hs. discriminate. }
      intros html [= <-]. cbn [loader componentCache]. now apply Hmemo.
  - split; [now eexists |].
    split; [split; [discriminate | intros [[html Hhtml] _]; discriminate] |].
    split; [reflexivity |].
    split; [intros html ds' el' [=] |].
    split; [intros html el' [=] |].
    split; [intros ps members el' [=] |].
    intros html [=].
Qed.

End Injection.

Lemma template_file_is_stored_trimmed_witness :
  Loader.extractComponentContent (H := Examples.no_dom)
    "  <!-- Header Component Template --><nav></nav>
" "anything"
  = "<!-- Header Component Template --><nav></nav>".
Proof.
  apply (proj1 (template_file_is_stored_trimmed (H := Examples.no_dom)
                  "  <!-- Header Component Template --><nav></nav>
" "anything" eq_refl eq_refl)).
Defined.

Lemma card_without_its_element_loads_empty_witness :
  fst (Loader.loadComponent (H := Examples.no_dom) MoreExamples.card_server "anime-card"
         Loader.fresh)
  = Js.Fulfilled "".
Proof.
  apply (proj1 (card_without_its_element_loads_empty (H := Examples.no_dom)
                  MoreExamples.card_server "anime-card" Loader.fresh
                  (Loader.Response 200 "OK" "<div class='card'>{{title}}</div>")
                  (or_introl eq_refl) eq_refl eq_refl eq_refl eq_refl eq_refl)).
Defined.

Lemma injectComponent_reports_instead_of_rejecting_witness :
  Components.document_log
    (snd (Components.injectComponent (H := Examples.no_dom) Examples.template_server
            MoreExamples.parse "header" (Some "#nav")
            (Some (Components.Value MoreExamples.title))
            (Components.Page Loader.fresh [])))
  = [Components.SetInnerHTML "#nav"
       (Some "<!-- Header Component Template --><nav>StartAnime</nav>");
     Components.AddClass "#nav" "component-loaded";
     Components.DispatchEvent "componentInjected" "header" "#nav"]
  /\ Components.document_log
       (snd (Components.injectComponent (H := Examples.no_dom) MoreExamples.unreachable
               MoreExamples.parse "header" (Some "#nav") None
               (Components.Page Loader.fresh [])))
     = [].
Proof.
  split.
  - apply (proj1 (proj2 (proj2 (proj2 (proj2 (proj2
             (injectComponent_reports_instead_of_rejecting (H := Examples.no_dom)
                Examples.template_server MoreExamples.parse "header" (Some "#nav")
                (Some (Components.Value MoreExamples.title))
                (Components.Page Loader.fresh []))))))))
      with (ps := MoreExamples.header_pieces)
           (members := [("title", Json.Str "StartAnime")]);
      reflexivity.
  - apply (proj1 (proj2 (proj2
             (injectComponent_reports_instead_of_rejecting (H := Examples.no_dom)
                MoreExamples.unreachable MoreExamples.parse "header" (Some "#nav") None
                (Components.Page Loader.fresh []))))).
    reflexivity.
Defined.
